(** * Twinity Cloud Functions: the point-award handlers

    A shallow embedding of the two HTTP handlers of the Cloud Functions
    file ([applyAdReward] and [awardGamePoints]), of the token helper they
    share ([verifyIdTokenFromReq]) and of the parts of the JavaScript
    runtime, of Express and of Firestore that the handlers call, followed
    by the properties of the reward transaction.

    Conventions of the model.
    - A JavaScript string is the [string] of its UTF-8 bytes.
    - A JavaScript Number is written as a decimal ([number]): a Number of
      a request is given by the digits Number::toString prints for it,
      and the Number of a string is the double nearest to the numeral it
      holds.  The sign of zero is not modelled.
    - The increment of the store adds integers exactly and without bound.
      This is what the store and JavaScript do as long as the total is a
      safe integer (at most [MAX_SAFE_INTEGER] in magnitude); the
      properties of a call on an arbitrary store are stated for such
      totals.
    - The four fields of a request body hold any JSON value, or nothing.
      Which arrays and objects the store takes as a field value is left
      to the world ([storable]).
    - One request is handled at a time: a transaction callback runs once
      and its writes are committed together.  The store does not fail on
      its own; the only exceptions are those the modelled calls raise. *)

From Stdlib Require Import ZArith String Ascii List DecimalString Lia Bool.
From Stdlib Require DecimalPos DecimalZ.
From stdpp Require Import gmap strings.

Local Open Scope string_scope.
Local Open Scope Z_scope.

Set Warnings "-register-all".

(* ===================================================================== *)
(** ** JavaScript values and the coercions the handlers rely on *)
(* ===================================================================== *)

Module JS.

(** A Number.  [NInt z] is the integer [z]; [NDec m k] is the finite
    non-integral number [m / 10^k] ([m] is not a multiple of ten). *)
Inductive number :=
| NInt (z : Z)
| NDec (m : Z) (k : positive)
| NNaN
| NInf (negative : bool).

(** The values a JSON body can hold, and [undefined] for a property that
    is absent.  An object lists its own properties in the order of the
    text. *)
Inductive value :=
| VUndefined
| VNull
| VBool (b : bool)
| VNum (n : number)
| VStr (s : string)
| VArr (items : list value)
| VObj (props : list (string * value)).

(** [m / 10^k] in normal form: trailing zeros of the fraction dropped,
    an integer when no fraction digit is left. *)
Fixpoint strip_zeros (k : nat) (m : Z) : number :=
  match k with
  | O => NInt m
  | S k' =>
      if m mod 10 =? 0 then strip_zeros k' (m / 10)
      else NDec m (Pos.of_nat k)
  end.

(** [m * 10^e] *)
Definition mkNumber (m e : Z) : number :=
  if 0 <=? e then NInt (m * 10 ^ e)
  else strip_zeros (Z.to_nat (- e)) m.

Definition negate (x : number) : number :=
  match x with
  | NInt z => NInt (- z)
  | NDec m k => NDec (- m) k
  | NNaN => NNaN
  | NInf b => NInf (negb b)
  end.

(** *** Rounding to a double *)

(** [2^e <= a / b], for positive [a] and [b]. *)
Definition reaches_pow2 (a b e : Z) : bool :=
  if 0 <=? e then b * 2 ^ e <=? a else b <=? a * 2 ^ (- e).

(** The double nearest to the positive rational [a / b], ties to even:
    53 significant bits, subnormal below [2^-1022], Infinity from
    [2^1024] on. *)
Definition nearest_double (a b : Z) : number :=
  let e0 := Z.log2 a - Z.log2 b in
  let e := if reaches_pow2 a b e0 then e0 else e0 - 1 in
  let q := Z.max e (-1022) - 52 in
  let num := if q <? 0 then a * 2 ^ (- q) else a in
  let den := if q <? 0 then b else b * 2 ^ q in
  let n0 := num / den in
  let r := num mod den in
  let n := if den <? 2 * r then n0 + 1
           else if 2 * r <? den then n0
           else if Z.even n0 then n0 else n0 + 1 in
  if 0 <=? q then
    if 2 ^ 1024 <=? n * 2 ^ q then NInf false else NInt (n * 2 ^ q)
  else mkNumber (n * 5 ^ (- q)) q.

(** The Number that the decimal numeral [m * 10^e] denotes. *)
Definition round_decimal (m e : Z) : number :=
  if m =? 0 then NInt 0
  else
    let x := if 0 <=? e then nearest_double (Z.abs m * 10 ^ e) 1
             else nearest_double (Z.abs m) (10 ^ (- e)) in
    if m <? 0 then negate x else x.

(** *** Number::toString

    The text of a Number given by its shortest digits, as the Numbers of
    a request and the integers of the clock are. *)

Definition decimal (z : Z) : string := NilZero.string_of_int (Z.to_int z).

Fixpoint zeros (n : nat) : string :=
  match n with O => "" | S n' => String "0" (zeros n') end.

Fixpoint drop_trailing_zeros (s : string) : string :=
  match s with
  | EmptyString => EmptyString
  | String c r =>
      match drop_trailing_zeros r with
      | EmptyString => if Ascii.eqb c "0" then EmptyString else String c EmptyString
      | r' => String c r'
      end
  end.

(** The exponent form [d.ddde+x] of the digit string [ds], whose decimal
    point stands after [n] digits. *)
Definition exponent_form (ds : string) (n : Z) : string :=
  let e := n - 1 in
  let mantissa :=
    match ds with
    | EmptyString => "0"
    | String d EmptyString => String d EmptyString
    | String d rest => String d ("." ++ rest)
    end in
  mantissa ++ "e" ++ (if 0 <=? e then "+" else "-") ++ decimal (Z.abs e).

(** Digits [ds] (no trailing zeros beyond the integer part) with the
    decimal point after [n] digits, as Number::toString lays them out. *)
Definition layout (ds : string) (n : Z) : string :=
  let k := Z.of_nat (String.length ds) in
  if (k <=? n) && (n <=? 21) then ds ++ zeros (Z.to_nat (n - k))
  else if (0 <? n) && (n <=? 21) then
    substring 0 (Z.to_nat n) ds ++ "." ++ substring (Z.to_nat n) (Z.to_nat (k - n)) ds
  else if (-6 <? n) && (n <=? 0) then "0." ++ zeros (Z.to_nat (- n)) ++ ds
  else exponent_form ds n.

Definition Number_toString (x : number) : string :=
  match x with
  | NNaN => "NaN"
  | NInf false => "Infinity"
  | NInf true => "-Infinity"
  | NInt z =>
      if z =? 0 then "0"
      else
        let ds := decimal (Z.abs z) in
        (if z <? 0 then "-" else "") ++
        layout (drop_trailing_zeros ds) (Z.of_nat (String.length ds))
  | NDec m k =>
      let ds := decimal (Z.abs m) in
      (if m <? 0 then "-" else "") ++
      layout ds (Z.of_nat (String.length ds) - Z.pos k)
  end.

(** *** StringToNumber

    The StringNumericLiteral grammar: optional white space around an
    optionally signed decimal literal (with fraction and exponent),
    [Infinity], or an unsigned hexadecimal, octal or binary integer; the
    empty string is 0 and anything else is NaN.  The Number of a literal
    is the double nearest to it, given by its exact value. *)

(** The white space and line terminators of ECMAScript: in one byte TAB,
    LF, VT, FF, CR and SP; in two U+00A0; in three U+1680, U+2000 to
    U+200A, U+2028, U+2029, U+202F, U+205F, U+3000 and U+FEFF. *)
Definition is_space (c : ascii) : bool :=
  let n := nat_of_ascii c in
  ((9 <=? n) && (n <=? 13))%nat || (n =? 32)%nat.

Definition is_space2 (c1 c2 : ascii) : bool :=
  ((nat_of_ascii c1 =? 194) && (nat_of_ascii c2 =? 160))%nat.

Definition is_space3 (c1 c2 c3 : ascii) : bool :=
  let '(a, b, c) := (nat_of_ascii c1, nat_of_ascii c2, nat_of_ascii c3) in
  ((a =? 225) && (b =? 154) && (c =? 128)
   || (a =? 226) && (b =? 128)
      && ((128 <=? c) && (c <=? 138) || (c =? 168) || (c =? 169) || (c =? 175))
   || (a =? 226) && (b =? 129) && (c =? 159)
   || (a =? 227) && (b =? 128) && (c =? 128)
   || (a =? 239) && (b =? 187) && (c =? 191))%nat.

(** [s] without the white space at its head; [two] and [three] recognise
    the characters of two and three bytes. *)
Fixpoint strip_spaces (two : ascii -> ascii -> bool)
    (three : ascii -> ascii -> ascii -> bool) (s : string) : string :=
  match s with
  | String c1 r1 =>
      if is_space c1 then strip_spaces two three r1
      else
        match r1 with
        | String c2 r2 =>
            if two c1 c2 then strip_spaces two three r2
            else
              match r2 with
              | String c3 r3 =>
                  if three c1 c2 c3 then strip_spaces two three r3 else s
              | EmptyString => s
              end
        | EmptyString => s
        end
  | EmptyString => EmptyString
  end.

Fixpoint reverse (acc s : string) : string :=
  match s with
  | EmptyString => acc
  | String c r => reverse (String c acc) r
  end.

Definition trim_left (s : string) : string := strip_spaces is_space2 is_space3 s.

(** From the end the bytes of a character come in reverse. *)
Definition trim_right (s : string) : string :=
  reverse ""
    (strip_spaces (fun a b => is_space2 b a) (fun a b c => is_space3 c b a)
       (reverse "" s)).

Definition trim (s : string) : string := trim_right (trim_left s).

Definition digit_value (base : Z) (c : ascii) : option Z :=
  let n := Z.of_nat (nat_of_ascii c) in
  let d :=
    if (48 <=? n) && (n <=? 57) then n - 48
    else if (97 <=? n) && (n <=? 102) then n - 87
    else if (65 <=? n) && (n <=? 70) then n - 55
    else base in
  if d <? base then Some d else None.

(** The value of a string made of digits only ([None] otherwise). *)
Fixpoint digits_value (base acc : Z) (s : string) : option Z :=
  match s with
  | EmptyString => Some acc
  | String c r =>
      match digit_value base c with
      | Some d => digits_value base (acc * base + d) r
      | None => None
      end
  end.

(** The longest run of decimal digits at the head of [s], and the rest. *)
Fixpoint span_digits (s : string) : string * string :=
  match s with
  | String c r =>
      match digit_value 10 c with
      | Some _ => let (ds, rest) := span_digits r in (String c ds, rest)
      | None => (EmptyString, s)
      end
  | EmptyString => (EmptyString, EmptyString)
  end.

Definition nonempty (s : string) : bool :=
  match s with EmptyString => false | String _ _ => true end.

Definition parse_exponent (s : string) : option Z :=
  match s with
  | EmptyString => Some 0
  | String c r =>
      if Ascii.eqb c "e" || Ascii.eqb c "E" then
        let (sign, ds) :=
          match r with
          | String "+" r' => (1, r')
          | String "-" r' => (-1, r')
          | _ => (1, r)
          end in
        if nonempty ds then option_map (Z.mul sign) (digits_value 10 0 ds)
        else None
      else None
  end.

Definition parse_unsigned_decimal (s : string) : option number :=
  if String.eqb s "Infinity" then Some (NInf false)
  else
    let (ip, r1) := span_digits s in
    let '(fp, r2) :=
      match r1 with
      | String "." r => span_digits r
      | _ => (EmptyString, r1)
      end in
    if nonempty ip || nonempty fp then
      match digits_value 10 0 (ip ++ fp), parse_exponent r2 with
      | Some m, Some e => Some (round_decimal m (e - Z.of_nat (String.length fp)))
      | _, _ => None
      end
    else None.

Definition parse_decimal (s : string) : option number :=
  match s with
  | String "+" r => parse_unsigned_decimal r
  | String "-" r => option_map negate (parse_unsigned_decimal r)
  | _ => parse_unsigned_decimal s
  end.

Definition parse_radix (s : string) : option number :=
  match s with
  | String "0" (String c ds) =>
      let base :=
        if Ascii.eqb c "x" || Ascii.eqb c "X" then 16
        else if Ascii.eqb c "o" || Ascii.eqb c "O" then 8
        else if Ascii.eqb c "b" || Ascii.eqb c "B" then 2
        else 0 in
      if (0 <? base) && nonempty ds
      then option_map (fun z => round_decimal z 0) (digits_value base 0 ds)
      else None
  | _ => None
  end.

Definition StringToNumber (s : string) : number :=
  let t := trim s in
  if nonempty t then
    match parse_radix t with
    | Some n => n
    | None => match parse_decimal t with Some n => n | None => NNaN end
    end
  else NInt 0.

(** *** Abstract operations on values *)

Definition ToBoolean (v : value) : bool :=
  match v with
  | VUndefined | VNull => false
  | VBool b => b
  | VNum (NInt z) => negb (z =? 0)
  | VNum (NDec m _) => negb (m =? 0)
  | VNum NNaN => false
  | VNum (NInf _) => true
  | VStr s => nonempty s
  | VArr _ | VObj _ => true
  end.

(** Whether turning [v] into a primitive raises a TypeError.  An object
    of a JSON text inherits [toString] from Object.prototype unless a
    property of its own has that name, and such a property is never a
    function; an array joins its elements, turning each into a string. *)
Fixpoint raises (v : value) : bool :=
  match v with
  | VArr items =>
      (fix any (l : list value) : bool :=
         match l with
         | [] => false
         | x :: rest => raises x || any rest
         end) items
  | VObj props => existsb (fun kv => String.eqb kv.1 "toString") props
  | _ => false
  end.

(** [String(v)], where it does not raise: an array is its elements
    joined by commas, [null] and [undefined] among them left empty. *)
Fixpoint ToString (v : value) : string :=
  match v with
  | VUndefined => "undefined"
  | VNull => "null"
  | VBool b => if b then "true" else "false"
  | VNum n => Number_toString n
  | VStr s => s
  | VArr items =>
      (fix join (l : list value) : string :=
         match l with
         | [] => ""
         | x :: rest =>
             let sx := match x with
                       | VUndefined | VNull => ""
                       | _ => ToString x
                       end in
             match rest with
             | [] => sx
             | _ :: _ => sx ++ "," ++ join rest
             end
         end) items
  | VObj _ => "[object Object]"
  end.

(** [Number(v)]: an array or object goes through its string; where that
    raises there is no Number, and NaN stands for it. *)
Definition ToNumber (v : value) : number :=
  match v with
  | VUndefined => NNaN
  | VNull => NInt 0
  | VBool b => NInt (if b then 1 else 0)
  | VNum n => n
  | VStr s => StringToNumber s
  | VArr _ | VObj _ => if raises v then NNaN else StringToNumber (ToString v)
  end.

(** [Number.isInteger(v)]: no coercion, a Number with an integral value. *)
Definition Number_isInteger (v : value) : bool :=
  match v with VNum (NInt _) => true | _ => false end.

(** The global [isNaN(v)]: coerces its argument. *)
Definition isNaN (v : value) : bool :=
  match ToNumber v with NNaN => true | _ => false end.

Definition frac_digits (x : number) : Z :=
  match x with NDec _ k => Z.pos k | _ => 0 end.

Definition mantissa (x : number) : Z :=
  match x with NInt z => z | NDec m _ => m | _ => 0 end.

(** [a < b] on Numbers; false as soon as one is NaN. *)
Definition num_lt (a b : number) : bool :=
  match a, b with
  | NNaN, _ | _, NNaN => false
  | NInf true, NInf true => false
  | NInf true, _ => true
  | _, NInf true => false
  | NInf false, _ => false
  | _, NInf false => true
  | _, _ =>
      mantissa a * 10 ^ frac_digits b <? mantissa b * 10 ^ frac_digits a
  end.

(** The relational operators, at the uses the handlers make of them: one
    operand is always a Number, so both are compared as Numbers:
    [less a b] is [a < b], [greater a b] is [a > b], [less_eq a b] is
    [a <= b]. *)
Definition less (a b : value) : bool := num_lt (ToNumber a) (ToNumber b).
Definition greater (a b : value) : bool := less b a.
Definition less_eq (a b : value) : bool :=
  negb (less b a) && negb (isNaN a) && negb (isNaN b).

(** [v === s] and [v !== s] against a string. *)
Definition strict_eq (v : value) (s : string) : bool :=
  match v with VStr t => String.eqb t s | _ => false end.
Definition strict_ne (v : value) (s : string) : bool := negb (strict_eq v s).

(** [a || b] *)
Definition or_else (a b : value) : value := if ToBoolean a then a else b.

End JS.

(* ===================================================================== *)
(** ** Firestore: documents, writes and their atomic commit *)
(* ===================================================================== *)

Module Firestore.
Import JS.

(** A stored field: a value as a request can carry it, a timestamp, or
    anything else (a reference, a geo point), which the handlers never
    inspect. *)
Inductive fsval :=
| FPrim (v : value)
| FTimestamp (t : Z)
| FOther (tag : nat).

(** The store: [users/{uid}] documents and, under each, the
    [activities] subcollection in order of creation (its documents get
    fresh automatic ids, so creating one appends to the list). *)
Record firestore := {
  users : gmap string (gmap string fsval);
  activities : gmap string (list (gmap string fsval));
}.

Definition no_documents : firestore := {| users := ∅; activities := ∅ |}.

(** What a write supplies for a field: data, or a [FieldValue] sentinel. *)
Inductive fieldInput :=
| Plain (v : fsval)
| Increment (operand : value)     (* FieldValue.increment(operand) *)
| ServerTimestamp.                (* FieldValue.serverTimestamp() *)

Inductive docRef :=
| UserRef (uid : string)          (* db.collection("users").doc(uid) *)
| ActivityRef (uid : string).     (* userRef.collection("activities").doc() *)

Inductive write :=
| WSet (ref : docRef) (data : list (string * fieldInput)) (merge : bool)
| WUpdate (ref : docRef) (data : list (string * fieldInput)).

(** Addition of Numbers, as the increment transform performs it: exact.
    The store adds integers in 64 bits and everything else as doubles,
    and JavaScript reads a double back, so the sum is the stored and
    reported one for safe integers (see [safe_total]); NaN and the
    infinities behave as in IEEE 754. *)
Definition num_add (a b : number) : number :=
  match a, b with
  | NNaN, _ | _, NNaN => NNaN
  | NInf s, NInf t => if Bool.eqb s t then NInf s else NNaN
  | NInf s, _ | _, NInf s => NInf s
  | NInt x, NInt y => NInt (x + y)
  | _, _ =>
      mkNumber (mantissa a * 10 ^ frac_digits b + mantissa b * 10 ^ frac_digits a)
               (- (frac_digits a + frac_digits b))
  end.

(** The value a field takes: an increment adds to a numeric field and
    replaces anything else (or nothing) by its operand; the timestamp is
    the server's commit time.  (An increment whose operand is not a
    Number is refused before it is buffered, see [valid_input].) *)
Definition resolve (serverTime : Z) (current : option fsval) (f : fieldInput) : fsval :=
  match f with
  | Plain v => v
  | Increment (VNum n) =>
      match current with
      | Some (FPrim (VNum c)) => FPrim (VNum (num_add c n))
      | _ => FPrim (VNum n)
      end
  | Increment v => FPrim v
  | ServerTimestamp => FTimestamp serverTime
  end.

(** Writing [data] into [d] field by field; fields not named keep their
    value. *)
Definition merge_fields (serverTime : Z) (d : gmap string fsval)
    (data : list (string * fieldInput)) : gmap string fsval :=
  fold_left (fun acc kf => <[kf.1 := resolve serverTime (acc !! kf.1) kf.2]> acc) data d.

(** One write.  [set] with merge creates the document or merges into it,
    [set] without merge replaces it, [update] fails on a missing
    document; on a fresh activity reference every [set] creates. *)
Definition apply_write (serverTime : Z) (w : write) (s : firestore) : option firestore :=
  match w with
  | WSet (UserRef uid) data merge =>
      let base := if merge then default ∅ (users s !! uid) else ∅ in
      Some {| users := <[uid := merge_fields serverTime base data]> (users s);
              activities := activities s |}
  | WSet (ActivityRef uid) data _ =>
      Some {| users := users s;
              activities :=
                <[uid := (default [] (activities s !! uid)
                          ++ [merge_fields serverTime ∅ data])%list]> (activities s) |}
  | WUpdate (UserRef uid) data =>
      match users s !! uid with
      | Some d =>
          Some {| users := <[uid := merge_fields serverTime d data]> (users s);
                  activities := activities s |}
      | None => None
      end
  | WUpdate (ActivityRef _) _ => None
  end.

(** The commit of a transaction: every write, in order, or none. *)
Fixpoint commit (serverTime : Z) (ws : list write) (s : firestore) : option firestore :=
  match ws with
  | [] => Some s
  | w :: ws' =>
      match apply_write serverTime w s with
      | Some s' => commit serverTime ws' s'
      | None => None
      end
  end.

(** A field input that is accepted: an increment takes a Number,
    [undefined] cannot be stored, and among the arrays and objects the
    store takes those that [storable] says (it refuses, for one, an array
    that is an element of an array). *)
Definition valid_input (storable : value -> bool) (kf : string * fieldInput) : bool :=
  match kf.2 with
  | Increment (VNum _) => true
  | Increment _ => false
  | Plain (FPrim VUndefined) => false
  | Plain (FPrim (VArr items)) => storable (VArr items)
  | Plain (FPrim (VObj props)) => storable (VObj props)
  | _ => true
  end.

(** An array that is an element of an array, anywhere in [v]. *)
Fixpoint array_in_array (v : value) : bool :=
  match v with
  | VArr items =>
      (fix any (l : list value) : bool :=
         match l with
         | [] => false
         | x :: rest =>
             match x with VArr _ => true | _ => array_in_array x end || any rest
         end) items
  | VObj props =>
      (fix any (l : list (string * value)) : bool :=
         match l with
         | [] => false
         | kv :: rest => array_in_array kv.2 || any rest
         end) props
  | _ => false
  end.

(** Truthiness of what [snapshot.data().field] yields. *)
Definition truthy (f : option fsval) : bool :=
  match f with
  | None => false
  | Some (FPrim v) => ToBoolean v
  | Some _ => true
  end.

(** [field || 0] *)
Definition or_zero (f : option fsval) : fsval :=
  match f with
  | Some v => if truthy f then v else FPrim (VNum (NInt 0))
  | None => FPrim (VNum (NInt 0))
  end.

(** [field === s] for a string [s]. *)
Definition field_is (f : option fsval) (s : string) : bool :=
  match f with
  | Some (FPrim v) => strict_eq v s
  | _ => false
  end.

End Firestore.

(* ===================================================================== *)
(** ** The handler monad: the store, the response object, exceptions *)
(* ===================================================================== *)

Module Handler.
Import JS Firestore.

(** The JSON body of a response. *)
Inductive reply :=
| Failure (error : string)                  (* { ok: false, error } *)
| Awarded (added : value) (points : fsval). (* { ok: true, added, points } *)

(** What a handler does, in order. *)
Inductive event :=
| Json (status : Z) (body : reply)   (* res.status(status).json(body) *)
| ConsoleError (label : string)      (* console.error(label, err) *)
| TxBegin                            (* db.runTransaction entered *)
| TxGet (uid : string)               (* tx.get(userRef) *)
| TxCommit (ws : list write)         (* the transaction's writes, committed together *)
| TxAbort                            (* the transaction ended without a commit *)
| Get (uid : string).                (* userRef.get() *)

Inductive exn :=
| ERR_HTTP_HEADERS_SENT              (* a second response on the same request *)
| InvalidToken                       (* verifyIdToken rejected *)
| FirestoreError                     (* a refused write or commit *)
| TypeError.                         (* a value that cannot be made a primitive *)

(** The world around one request: the identity service, the clock of the
    function, the clock of the store and the arrays and objects the
    store takes as a field value. *)
Record env := {
  verifyIdToken : string -> option string;   (* the token's uid, if it verifies *)
  getUTCFullYear : Z;
  getUTCMonth : Z;                            (* 0 for January *)
  getUTCDate : Z;
  serverTime : Z;
  storable : value -> bool;
}.

Record state := {
  db : firestore;
  pending : list write;      (* the writes buffered by the open transaction *)
  log : list event;
}.

Definition M (A : Type) : Type := state -> (A + exn) * state.

Definition ret {A} (a : A) : M A := fun st => (inl a, st).

Definition bind {A B} (m : M A) (k : A -> M B) : M B :=
  fun st =>
    match m st with
    | (inl a, st') => k a st'
    | (inr e, st') => (inr e, st')
    end.

Definition throw {A} (e : exn) : M A := fun st => (inr e, st).

(** [try { body } catch (err) { handler }] *)
Definition try_catch {A} (body : M A) (handler : exn -> M A) : M A :=
  fun st =>
    match body st with
    | (inl a, st') => (inl a, st')
    | (inr e, st') => handler e st'
    end.

Definition emit (ev : event) : M unit :=
  fun st => (inl tt, {| db := db st; pending := pending st; log := (log st ++ [ev])%list |}).

Definition is_json (ev : event) : bool :=
  match ev with Json _ _ => true | _ => false end.

(** The responses the handler asked for, in order. *)
Definition replies (l : list event) : list (Z * reply) :=
  flat_map (fun ev => match ev with Json s b => [(s, b)] | _ => [] end) l.

(** The response the client receives: the first one. *)
Definition delivered (l : list event) : option (Z * reply) := head (replies l).

(** [res.status(status).json(body)].  Express sends the first response;
    once the headers are out, a further call raises. *)
Definition res_json (status : Z) (body : reply) : M unit :=
  fun st =>
    let st' := {| db := db st; pending := pending st;
                  log := (log st ++ [Json status body])%list |} in
    if existsb is_json (log st) then (inr ERR_HTTP_HEADERS_SENT, st')
    else (inl tt, st').

Definition console_error (label : string) : M unit := emit (ConsoleError label).

(** [tx.get(userRef)]: the snapshot, [None] when the document is absent. *)
Definition tx_get (uid : string) : M (option (gmap string fsval)) :=
  fun st =>
    (inl (users (db st) !! uid),
     {| db := db st; pending := pending st; log := (log st ++ [TxGet uid])%list |}).

Definition buffer (E : env) (w : write) (data : list (string * fieldInput)) : M unit :=
  fun st =>
    if forallb (valid_input (storable E)) data
    then (inl tt, {| db := db st; pending := (pending st ++ [w])%list; log := log st |})
    else (inr FirestoreError, st).

(** [tx.set(ref, data, { merge })] and [tx.update(ref, data)] *)
Definition tx_set (E : env) (ref : docRef) (data : list (string * fieldInput))
    (merge : bool) : M unit :=
  buffer E (WSet ref data merge) data.
Definition tx_update (E : env) (ref : docRef) (data : list (string * fieldInput)) : M unit :=
  buffer E (WUpdate ref data) data.

(** The coercion of [v] to a primitive, for its exception only. *)
Definition coerce (v : value) : M unit :=
  if raises v then throw TypeError else ret tt.

(** [userRef.get()] outside a transaction. *)
Definition doc_get (uid : string) : M (option (gmap string fsval)) :=
  fun st =>
    (inl (users (db st) !! uid),
     {| db := db st; pending := pending st; log := (log st ++ [Get uid])%list |}).

(** [db.runTransaction(callback)]: the callback buffers its writes; when
    it returns they are committed together, when it throws (or the commit
    is refused) none is applied and the exception propagates. *)
Definition runTransaction {A} (E : env) (callback : M A) : M A :=
  fun st =>
    let st0 := {| db := db st; pending := []; log := (log st ++ [TxBegin])%list |} in
    match callback st0 with
    | (inl a, st1) =>
        match commit (serverTime E) (pending st1) (db st1) with
        | Some db' =>
            (inl a, {| db := db'; pending := [];
                       log := (log st1 ++ [TxCommit (pending st1)])%list |})
        | None =>
            (inr FirestoreError,
             {| db := db st1; pending := []; log := (log st1 ++ [TxAbort])%list |})
        end
    | (inr e, st1) =>
        (inr e, {| db := db st1; pending := []; log := (log st1 ++ [TxAbort])%list |})
    end.

Module Notations.
Notation "'let*' x ':=' m 'in' k" := (bind m (fun x => k))
  (at level 10, x name, m at level 100, k at level 200).
Notation "m ';;' k" := (bind m (fun _ => k))
  (at level 100, k at level 200, right associativity).
End Notations.

End Handler.

(* ===================================================================== *)
(** ** The Cloud Functions *)
(* ===================================================================== *)

Module Functions.
Import JS Firestore Handler Handler.Notations.

(** The request: the [Authorization] header and the parsed JSON body
    ([None] when the request has none); a field holds [undefined] when
    the body has no such property. *)
Record body := {
  userId : value;
  points : value;
  level : value;
  totalScore : value;
}.

Record request := {
  authorization : option string;
  req_body : option body;
}.

(** [req.body || {}] *)
Definition body_or_empty (req : request) : body :=
  match req_body req with
  | Some b => b
  | None => {| userId := VUndefined; points := VUndefined;
               level := VUndefined; totalScore := VUndefined |}
  end.

(** [s.split(sep)[1]]: what stands between the first and the second
    occurrence of [sep]; [None] (undefined) when [sep] does not occur. *)
Definition split_1 (sep s : string) : option string :=
  match String.index 0 sep s with
  | None => None
  | Some i =>
      let start := (i + String.length sep)%nat in
      let rest := substring start (String.length s - start) s in
      match String.index 0 sep rest with
      | Some j => Some (substring 0 j rest)
      | None => Some rest
      end
  end.

Section Handlers.

Variable E : env.

(** [await admin.auth().verifyIdToken(idToken)] *)
Definition admin_verifyIdToken (idToken : option string) : M string :=
  match idToken with
  | Some t =>
      match verifyIdToken E t with
      | Some uid => ret uid
      | None => throw InvalidToken
      end
  | None => throw InvalidToken
  end.

(** Helper: verify the ID token of the Authorization header.  Yields the
    uid of the decoded token, or answers 401 and yields [None] (null). *)
Definition verifyIdTokenFromReq (req : request) : M (option string) :=
  let auth := default "" (authorization req) in
  if negb (String.prefix "Bearer " auth) then
    res_json 401 (Failure "Missing or invalid Authorization header") ;;
    ret None
  else
    let idToken := split_1 "Bearer " auth in
    try_catch
      (let* decoded := admin_verifyIdToken idToken in
       ret (Some decoded))
      (fun err =>
         console_error "verifyIdToken error:" ;;
         res_json 401 (Failure "Invalid ID token") ;;
         ret None).

(** [`${now.getUTCFullYear()}-${now.getUTCMonth()+1}-${now.getUTCDate()}`] *)
Definition dayKey : string :=
  Number_toString (NInt (getUTCFullYear E)) ++ "-" ++
  Number_toString (NInt (getUTCMonth E + 1)) ++ "-" ++
  Number_toString (NInt (getUTCDate E)).

(** [fresh.exists ? (fresh.data().points || 0) : 0] *)
Definition newPoints (fresh : option (gmap string fsval)) : fsval :=
  match fresh with
  | Some d => or_zero (d !! "points")
  | None => FPrim (VNum (NInt 0))
  end.

Definition applyAdReward (req : request) : M unit :=
  try_catch
    (let* decoded := verifyIdTokenFromReq req in
     match decoded with
     | None => ret tt
     | Some uid =>
         let userId := userId (body_or_empty req) in
         if negb (ToBoolean userId) || strict_ne userId uid then
           res_json 400 (Failure "userId mismatch")
         else
           runTransaction E
             (let* snap := tx_get uid in
              let data := default ∅ snap in
              (* Already claimed today? *)
              if field_is (data !! "lastAdShown") dayKey then
                res_json 200 (Failure "Already claimed today")
              else
                (* Award points and set lastAdShown *)
                tx_set E (UserRef uid)
                  [("points", Increment (VNum (NInt 100)));
                   ("lastAdShown", Plain (FPrim (VStr dayKey)))] true ;;
                (* add activity entry *)
                tx_set E (ActivityRef uid)
                  [("text", Plain (FPrim (VStr "Watched daily ad +100 pts (server)")));
                   ("time", ServerTimestamp)] false ;;
                ret tt) ;;
           (* Re-fetch points to return to caller (best-effort) *)
           let* fresh := doc_get uid in
           res_json 200 (Awarded (VNum (NInt 100)) (newPoints fresh))
     end)
    (fun err =>
       console_error "applyAdReward error:" ;;
       res_json 500 (Failure "server_error")).

Definition MAX_POINTS_PER_CALL : value := VNum (NInt 1000).
Definition MAX_LEVEL_ALLOWED : value := VNum (NInt 500).

(** [`Game: +${points} pts (level ${level || "?"})`] *)
Definition game_text (points level : value) : string :=
  "Game: +" ++ ToString points ++ " pts (level " ++
  ToString (or_else level (VStr "?")) ++ ")".

Definition awardGamePoints (req : request) : M unit :=
  try_catch
    (let* decoded := verifyIdTokenFromReq req in
     match decoded with
     | None => ret tt
     | Some uid =>
         let b := body_or_empty req in
         if negb (ToBoolean (userId b)) || strict_ne (userId b) uid then
           res_json 400 (Failure "userId mismatch")
         else if negb (Number_isInteger (points b)) || less_eq (points b) (VNum (NInt 0)) then
           res_json 400 (Failure "invalid points")
         (* Basic anti-abuse: limit per-call points, and limit level number *)
         else if greater (points b) MAX_POINTS_PER_CALL then
           res_json 400 (Failure "points_too_large")
         else
           (* isNaN(level) makes a truthy level a primitive first *)
           (if ToBoolean (level b) then coerce (level b) else ret tt) ;;
           if ToBoolean (level b) &&
              (isNaN (level b) || less (level b) (VNum (NInt 0))
               || greater (level b) MAX_LEVEL_ALLOWED) then
             res_json 400 (Failure "invalid level")
           else
             runTransaction E
               (let* snap := tx_get uid in
                match snap with
                | None =>
                    (* create minimal user doc if missing *)
                    tx_set E (UserRef uid) [("points", Increment (points b))] true
                | Some _ =>
                    tx_update E (UserRef uid) [("points", Increment (points b))]
                end ;;
                tx_set E (ActivityRef uid)
                  [("text", Plain (FPrim (VStr (game_text (points b) (level b)))));
                   ("time", ServerTimestamp);
                   ("totalScore", Plain (FPrim (or_else (totalScore b) VNull)))] true) ;;
             let* fresh := doc_get uid in
             res_json 200 (Awarded (points b) (newPoints fresh))
     end)
    (fun err =>
       console_error "awardGamePoints error:" ;;
       res_json 500 (Failure "server_error")).

End Handlers.

(** Running a handler on one request against a store. *)
Definition init (s : firestore) : state := {| db := s; pending := []; log := [] |}.

Definition run (h : M unit) (s : firestore) : (unit + exn) * state := h (init s).

End Functions.

(* ===================================================================== *)
(** ** Observations on a run *)
(* ===================================================================== *)

Module Obs.
Import JS Firestore Handler Functions.

(** A field of the balance record [users/{uid}] ([None] when the record
    or the field is absent). *)
Definition field (s : firestore) (uid name : string) : option fsval :=
  users s !! uid ≫= (fun d => d !! name).

(** The point total: the integer in the [points] field, 0 without one. *)
Definition total_of (f : option fsval) : Z :=
  match f with
  | Some (FPrim (VNum (NInt z))) => z
  | _ => 0
  end.

Definition pointTotal (s : firestore) (uid : string) : Z :=
  total_of (field s uid "points").

(** The data model's typing of the total: a [points] field that holds a
    Number holds an integer. *)
Definition integral (f : option fsval) : bool :=
  match f with
  | Some (FPrim (VNum (NInt _))) => true
  | Some (FPrim (VNum _)) => false
  | _ => true
  end.

(** The audit records of a user, oldest first. *)
Definition audits (s : firestore) (uid : string) : list (gmap string fsval) :=
  default [] (activities s !! uid).

(** The uid [verifyIdTokenFromReq] yields for a request, if any. *)
Definition authenticate (E : env) (req : request) : option string :=
  let auth := default "" (authorization req) in
  if String.prefix "Bearer " auth
  then split_1 "Bearer " auth ≫= verifyIdToken E
  else None.

(** The batches committed during a run, and whether a transaction was
    opened at all. *)
Definition commits (l : list event) : list (list write) :=
  flat_map (fun ev => match ev with TxCommit ws => [ws] | _ => [] end) l.

Definition opens_transaction (l : list event) : bool :=
  existsb (fun ev => match ev with TxBegin => true | _ => false end) l.

(** [needle] occurs in [hay]. *)
Fixpoint includes (needle hay : string) : bool :=
  String.prefix needle hay ||
  match hay with
  | String _ rest => includes needle rest
  | EmptyString => false
  end.

(** A point award the validation of [awardGamePoints] lets through. *)
Definition valid_points (v : value) : Prop :=
  exists p, v = VNum (NInt p) /\ 1 <= p <= 1000.

(** A Number from 0 to 500. *)
Definition from_0_to_500 (n : number) : Prop :=
  match n with
  | NInt z => 0 <= z <= 500
  | NDec m k => 0 <= m <= 500 * 10 ^ Z.pos k
  | NNaN => False
  | NInf _ => False
  end.

(** A level the handler lets through: a falsy one, which it does not
    check, or one whose Number is from 0 to 500. *)
Definition level_passes (level : value) : Prop :=
  ToBoolean level = false \/ from_0_to_500 (ToNumber level).

(** A JSON primitive, or [undefined]. *)
Definition primitive (v : value) : bool :=
  match v with VArr _ | VObj _ => false | _ => true end.

(** A level whose check raises: a truthy one that cannot be made a
    primitive. *)
Definition level_raises (level : value) : bool :=
  ToBoolean level && raises level.

(** [Number.MAX_SAFE_INTEGER]: up to it in magnitude, the integers are
    exactly those a Number holds, and the store and JavaScript agree on
    them. *)
Definition MAX_SAFE_INTEGER : Z := 2 ^ 53 - 1.

(** A total that is absent or a safe integer, and still a safe integer
    once [n] is added. *)
Definition safe_total (f : option fsval) (n : Z) : Prop :=
  match f with
  | Some (FPrim (VNum (NInt z))) =>
      - MAX_SAFE_INTEGER <= z /\ z + n <= MAX_SAFE_INTEGER
  | Some (FPrim (VNum _)) => False
  | _ => True
  end.

(** The activity record of a game award is one the store takes. *)
Definition record_storable (E : env) (totalScore : value) : bool :=
  valid_input (storable E) ("totalScore", Plain (FPrim (or_else totalScore VNull))).

(** The check [!userId || userId !== uid] of both handlers. *)
Definition mismatch (userId : value) (uid : string) : bool :=
  negb (ToBoolean userId) || strict_ne userId uid.

(** The two ways [verifyIdTokenFromReq] refuses a request, both a 401. *)
Definition refusals : list (list event) :=
  [ [Json 401 (Failure "Missing or invalid Authorization header")];
    [ConsoleError "verifyIdToken error:"; Json 401 (Failure "Invalid ID token")] ].

(** The writes of an ad reward, and the store once they are committed. *)
Definition ad_writes (E : env) (uid : string) : list write :=
  [ WSet (UserRef uid)
      [("points", Increment (VNum (NInt 100)));
       ("lastAdShown", Plain (FPrim (VStr (dayKey E))))] true;
    WSet (ActivityRef uid)
      [("text", Plain (FPrim (VStr "Watched daily ad +100 pts (server)")));
       ("time", ServerTimestamp)] false ].

(** The writes of a game award; the first depends on whether the record
    exists. *)
Definition game_writes (b : body) (uid : string) (present : bool) : list write :=
  [ if present
    then WUpdate (UserRef uid) [("points", Increment (points b))]
    else WSet (UserRef uid) [("points", Increment (points b))] true;
    WSet (ActivityRef uid)
      [("text", Plain (FPrim (VStr (game_text (points b) (level b)))));
       ("time", ServerTimestamp);
       ("totalScore", Plain (FPrim (or_else (totalScore b) VNull)))] true ].

(** The store after a batch that merges [udata] into [users/{uid}] and
    creates one activity from [adata]. *)
Definition awarded (t : Z) (uid : string) (udata adata : list (string * fieldInput))
    (s : firestore) : firestore :=
  {| users := <[uid := merge_fields t (default ∅ (users s !! uid)) udata]> (users s);
     activities :=
       <[uid := (audits s uid ++ [merge_fields t ∅ adata])%list]> (activities s) |}.

(** What a run that awards leaves in the log. *)
Definition award_log (uid : string) (ws : list write) (added : value)
    (s' : firestore) : list event :=
  [ TxBegin; TxGet uid; TxCommit ws; Get uid;
    Json 200 (Awarded added (newPoints (users s' !! uid))) ].

(** What the "already claimed" run of [applyAdReward] leaves in the log,
    up to the second response. *)
Definition claimed_log (uid : string) (s : firestore) : list event :=
  [ TxBegin; TxGet uid; Json 200 (Failure "Already claimed today");
    TxCommit []; Get uid;
    Json 200 (Awarded (VNum (NInt 100)) (newPoints (users s !! uid))) ].

(** The level check of [awardGamePoints]: true when it refuses. *)
Definition level_refused (level : value) : bool :=
  ToBoolean level &&
  (isNaN level || less level (VNum (NInt 0)) || greater level MAX_LEVEL_ALLOWED).

(** The points checks of [awardGamePoints]: the error, if they refuse. *)
Definition points_refused (points : value) : option string :=
  if negb (Number_isInteger points) || less_eq points (VNum (NInt 0))
  then Some "invalid points"
  else if greater points MAX_POINTS_PER_CALL then Some "points_too_large"
  else None.

(** The two endpoints, and the store after a call to one of them. *)
Inductive endpoint := AdReward | GamePoints.

Definition handler (c : endpoint) : env -> request -> M unit :=
  match c with
  | AdReward => applyAdReward
  | GamePoints => awardGamePoints
  end.

Definition next (E : env) (c : endpoint) (req : request) (s : firestore) : firestore :=
  db (run (handler c E req) s).2.

(** The stores the system reaches from the empty one by its own calls. *)
Inductive reachable : firestore -> Prop :=
| reach_empty : reachable Firestore.no_documents
| reach_call s E c req : reachable s -> reachable (next E c req s).

(** What the two 500 paths of [awardGamePoints] leave in the log: the
    level check raised, or the store refused the activity record. *)
Definition level_error_log : list event :=
  [ ConsoleError "awardGamePoints error:"; Json 500 (Failure "server_error") ].

Definition refused_write_log (uid : string) : list event :=
  [ TxBegin; TxGet uid; TxAbort;
    ConsoleError "awardGamePoints error:"; Json 500 (Failure "server_error") ].

(** The paths of a call: what it returns, the store it leaves and its
    log, path by path. *)
Inductive outcome (E : env) (req : request) (s : firestore) :
    endpoint -> (unit + exn) * state -> Prop :=
| out_unauthorized c evs :
    authenticate E req = None ->
    In evs refusals ->
    outcome E req s c (inl tt, {| db := s; pending := []; log := evs |})
| out_bad_request c uid err :
    authenticate E req = Some uid ->
    In err ["userId mismatch"; "invalid points"; "points_too_large"; "invalid level"] ->
    outcome E req s c
      (inl tt, {| db := s; pending := []; log := [Json 400 (Failure err)] |})
| out_claimed uid :
    authenticate E req = Some uid ->
    userId (body_or_empty req) = VStr uid ->
    field s uid "lastAdShown" = Some (FPrim (VStr (dayKey E))) ->
    outcome E req s AdReward
      (inr ERR_HTTP_HEADERS_SENT,
       {| db := s; pending := [];
          log := claimed_log uid s ++
                 [ConsoleError "applyAdReward error:";
                  Json 500 (Failure "server_error")] |})
| out_ad_award uid :
    authenticate E req = Some uid ->
    userId (body_or_empty req) = VStr uid ->
    field s uid "lastAdShown" <> Some (FPrim (VStr (dayKey E))) ->
    let s' := awarded (serverTime E) uid
                [("points", Increment (VNum (NInt 100)));
                 ("lastAdShown", Plain (FPrim (VStr (dayKey E))))]
                [("text", Plain (FPrim (VStr "Watched daily ad +100 pts (server)")));
                 ("time", ServerTimestamp)] s in
    outcome E req s AdReward
      (inl tt, {| db := s'; pending := [];
                  log := award_log uid (ad_writes E uid) (VNum (NInt 100)) s' |})
| out_level_error uid :
    authenticate E req = Some uid ->
    level_raises (level (body_or_empty req)) = true ->
    outcome E req s GamePoints
      (inl tt, {| db := s; pending := []; log := level_error_log |})
| out_refused_write uid :
    authenticate E req = Some uid ->
    record_storable E (totalScore (body_or_empty req)) = false ->
    outcome E req s GamePoints
      (inl tt, {| db := s; pending := []; log := refused_write_log uid |})
| out_game_award uid p :
    authenticate E req = Some uid ->
    let b := body_or_empty req in
    userId b = VStr uid ->
    points b = VNum (NInt p) ->
    1 <= p <= 1000 ->
    let s' := awarded (serverTime E) uid [("points", Increment (VNum (NInt p)))]
                [("text", Plain (FPrim (VStr (game_text (points b) (level b)))));
                 ("time", ServerTimestamp);
                 ("totalScore", Plain (FPrim (or_else (totalScore b) VNull)))] s in
    outcome E req s GamePoints
      (inl tt,
       {| db := s'; pending := [];
          log := award_log uid
                   (game_writes b uid (bool_decide (is_Some (users s !! uid))))
                   (points b) s' |}).

(** The invariant of the total: no [points] field, or a non-negative
    integer. *)
Definition total_ok (f : option fsval) : Prop :=
  f = None \/ exists z, 0 <= z /\ f = Some (FPrim (VNum (NInt z))).

(** The increments a write carries and the audit records it creates. *)
Definition increments_of (w : write) : list (docRef * string * value) :=
  let '(ref, data) :=
    match w with WSet r d _ => (r, d) | WUpdate r d => (r, d) end in
  flat_map (fun kf => match kf.2 with
                      | Increment v => [(ref, kf.1, v)]
                      | _ => []
                      end) data.

Definition audits_created_by (w : write) : list string :=
  match w with
  | WSet (ActivityRef uid) _ _ => [uid]
  | _ => []
  end.

End Obs.

(* ===================================================================== *)
(** ** A concrete world, for the scenarios *)
(* ===================================================================== *)

Module Scenario.
Import JS Firestore Handler Functions Obs.

(** The identity service knows one token, alice's; it is 2 November
    2026; the store takes any value but an array inside an array. *)
Definition world : env :=
  {| verifyIdToken := fun t => if String.eqb t "token-of-alice" then Some "alice" else None;
     getUTCFullYear := 2026; getUTCMonth := 10; getUTCDate := 2;
     serverTime := 1793577600;
     storable := fun v => negb (array_in_array v) |}.

Definition from_alice (b : body) : request :=
  {| authorization := Some "Bearer token-of-alice"; req_body := Some b |}.

Definition just_userId : body :=
  {| userId := VStr "alice"; points := VUndefined;
     level := VUndefined; totalScore := VUndefined |}.

Definition game (p l : value) : body :=
  {| userId := VStr "alice"; points := p; level := l; totalScore := VUndefined |}.

(** A request without an Authorization header. *)
Definition anonymous (b : body) : request :=
  {| authorization := None; req_body := Some b |}.

(** Alice has already claimed today's ad reward. *)
Definition claimed_today : firestore :=
  {| users := {[ "alice" := <["points" := FPrim (VNum (NInt 100))]>
                              {[ "lastAdShown" := FPrim (VStr "2026-11-2") ]} ]};
     activities := ∅ |}.

(** Alice's total is [n], and she has not been rewarded for an ad. *)
Definition with_total (n : number) : firestore :=
  {| users := {[ "alice" := {[ "points" := FPrim (VNum n) ]} ]};
     activities := ∅ |}.

(** Alice has a profile besides her points. *)
Definition with_profile : firestore :=
  {| users := {[ "alice" := <["points" := FPrim (VNum (NInt 10))]>
                              {[ "displayName" := FPrim (VStr "Alice") ]} ]};
     activities := ∅ |}.

End Scenario.

(* ===================================================================== *)
(** ** Days and sequences of calls *)
(* ===================================================================== *)

Module Sessions.
Import JS Firestore Handler Functions Obs.

(** The clock shows a calendar date: a year a JavaScript Date can hold
    (from year 0 on), a month from 0 to 11 and a day of the month. *)
Definition calendar_date (E : env) : Prop :=
  0 <= getUTCFullYear E <= 275760 /\
  0 <= getUTCMonth E <= 11 /\
  1 <= getUTCDate E <= 31.

(** Two clocks show the same UTC day. *)
Definition same_day (E E' : env) : Prop :=
  getUTCFullYear E = getUTCFullYear E' /\
  getUTCMonth E = getUTCMonth E' /\
  getUTCDate E = getUTCDate E'.

(** The stores the system reaches from the empty one by calls in worlds
    that satisfy [P]. *)
Inductive reachable_when (P : env -> Prop) : firestore -> Prop :=
| when_empty : reachable_when P Firestore.no_documents
| when_call s E c req :
    reachable_when P s -> P E -> reachable_when P (next E c req s).

(** A sequence of calls to awardGamePoints, each in its own world. *)
Definition play (calls : list (env * request)) (s : firestore) : firestore :=
  fold_left (fun acc c => next c.1 GamePoints c.2 acc) calls s.

(** A string of decimal digits. *)
Definition is_digit (c : ascii) : bool :=
  let n := nat_of_ascii c in ((48 <=? n) && (n <=? 57))%nat.

Fixpoint all_digits (s : string) : bool :=
  match s with
  | EmptyString => true
  | String c r => is_digit c && all_digits r
  end.

(** [P] holds of the [n] integers from [z] on. *)
Fixpoint all_from (P : Z -> bool) (z : Z) (n : nat) : bool :=
  match n with
  | O => true
  | S n' => P z && all_from P (z + 1) n'
  end.

(** The bearer token a well-formed header carries: what follows
    "Bearer ", up to a second "Bearer " if there is one. *)
Definition carried_token (tok : string) : string :=
  match String.index 0 "Bearer " tok with
  | Some j => substring 0 j tok
  | None => tok
  end.

(** The world of the scenarios one day later, 3 November 2026. *)
Definition tomorrow : env :=
  {| verifyIdToken := verifyIdToken Scenario.world;
     getUTCFullYear := 2026; getUTCMonth := 10; getUTCDate := 3;
     serverTime := 1793664000;
     storable := storable Scenario.world |}.

End Sessions.

(* ===================================================================== *)
(** ** Running the handlers: one equation per path *)
(* ===================================================================== *)

Import JS Firestore Handler Functions Obs.

(** *** The runtime on concrete values *)

Example Number_toString_examples :
  map Number_toString
      [NInt 0; NInt (-50); NInt 1000; NInt (10 ^ 21); NDec 35 1; NDec 1 7; NNaN]
  = ["0"; "-50"; "1000"; "1e+21"; "3.5"; "1e-7"; "NaN"].
Proof. reflexivity. Qed.

Example StringToNumber_examples :
  map StringToNumber [""; " 12 "; "-3.50"; "1e3"; "0x1F"; "Infinity"; "12px"]
  = [NInt 0; NInt 12; NDec (-35) 1; NInt 1000; NInt 31; NInf false; NNaN].
Proof. reflexivity. Qed.

Example StringToNumber_rounds_to_double :
  map StringToNumber
      ["500.00000000000000000001"; "-1e-400"; "1e400"; "9007199254740993";
       "0x20000000000001"; "0.5"; "-0"]
  = [NInt 500; NInt 0; NInf false; NInt 9007199254740992;
     NInt 9007199254740992; NDec 5 1; NInt 0].
Proof. reflexivity. Qed.

(** White space of more than one byte: U+00A0, U+2028 and U+FEFF. *)
Example StringToNumber_trims_white_space :
  let nbsp := String (ascii_of_nat 194) (String (ascii_of_nat 160) "") in
  let ls := String (ascii_of_nat 226)
              (String (ascii_of_nat 128) (String (ascii_of_nat 168) "")) in
  let bom := String (ascii_of_nat 239)
               (String (ascii_of_nat 187) (String (ascii_of_nat 191) "")) in
  map StringToNumber
      [nbsp ++ "5"; "5" ++ nbsp; ls ++ " 7 " ++ bom ++ nbsp; "5" ++ nbsp ++ "5"; nbsp]
  = [NInt 5; NInt 5; NInt 7; NNaN; NInt 0].
Proof. reflexivity. Qed.

Example arrays_and_objects_examples :
  map ToString
      [VArr []; VArr [VNum (NInt 5)]; VArr [VNum (NInt 1); VNull; VStr "a"];
       VArr [VArr [VNum (NInt 1); VNum (NInt 2)]; VBool true]; VObj []]
  = [""; "5"; "1,,a"; "1,2,true"; "[object Object]"] /\
  map ToNumber
      [VArr []; VArr [VNum (NInt 5)]; VArr [VStr "0x10"];
       VArr [VNum (NInt 1); VNum (NInt 2)]; VObj []]
  = [NInt 0; NInt 5; NInt 16; NNaN; NNaN] /\
  map raises
      [VObj [("toString", VNull)]; VObj [("valueOf", VNull)];
       VArr [VNum (NInt 1); VObj [("toString", VBool true)]]; VArr [VObj []]]
  = [true; false; true; false] /\
  map array_in_array
      [VArr [VArr []]; VObj [("a", VArr [VNum (NInt 1); VArr []])];
       VArr [VObj [("a", VArr [])]]; VArr [VNum (NInt 1)]]
  = [true; true; false; false].
Proof. repeat split. Qed.

Example comparison_examples :
  less (VNum (NDec (-1) 3)) (VNum (NInt 0)) = true /\
  greater (VNum (NDec 50001 2)) (VNum (NInt 500)) = true /\
  greater (VStr "abc") (VNum (NInt 500)) = false /\
  less_eq (VNum (NInt 0)) (VNum (NInt 0)) = true.
Proof. repeat split. Qed.

Example split_1_examples :
  map (split_1 "Bearer ") ["Bearer abc"; "Bearer a Bearer b"; "Bearer "; "Basic abc"]
  = [Some "abc"; Some "a "; Some ""; None].
Proof. reflexivity. Qed.

Example dayKey_example : dayKey Scenario.world = "2026-11-2".
Proof. reflexivity. Qed.

Example game_text_examples :
  game_text (VNum (NInt 50)) (VNum (NInt 3)) = "Game: +50 pts (level 3)" /\
  game_text (VNum (NInt 50)) VUndefined = "Game: +50 pts (level ?)" /\
  game_text (VNum (NInt 50)) (VNum (NInt 0)) = "Game: +50 pts (level ?)".
Proof. repeat split. Qed.

Example level_check_examples :
  map level_refused
      [VStr "abc"; VStr "12"; VStr " 500 "; VStr "500.5"; VStr "-1"; VStr "-1e-400";
       VStr ""; VBool true; VNull; VArr [VNum (NInt 5)]; VArr []; VObj [];
       VNum (NDec 35 1); VNum (NInt 501); VNum (NInf false)]
  = [true; false; false; true; true; false;
     false; false; false; false; false; true;
     false; true; true].
Proof. reflexivity. Qed.

(** *** The userId check *)

Lemma mismatch_other v uid : v <> VStr uid -> mismatch v uid = true.
Proof.
  intros Hne. unfold mismatch, strict_ne, strict_eq.
  destruct v as [| |b|n|t|l|fs]; try apply orb_true_r.
  destruct (String.eqb_spec t uid) as [->|Hd]; [congruence|apply orb_true_r].
Qed.

Lemma mismatch_same uid : uid <> "" -> mismatch (VStr uid) uid = false.
Proof.
  intros Hne. unfold mismatch, strict_ne, strict_eq. rewrite String.eqb_refl.
  destruct uid; [congruence|reflexivity].
Qed.

Lemma mismatch_false v uid : mismatch v uid = false -> v = VStr uid /\ uid <> "".
Proof.
  unfold mismatch, strict_ne, strict_eq. intros H.
  apply orb_false_elim in H as [H1 H2].
  destruct v as [| |b|n|t|l|fs]; try discriminate.
  apply negb_false_iff in H2. apply String.eqb_eq in H2. subst t.
  split; [reflexivity|]. intros ->. discriminate.
Qed.

(** *** The token helper *)

Lemma verifyIdTokenFromReq_ok E req uid s :
  authenticate E req = Some uid ->
  verifyIdTokenFromReq E req (init s) = (inl (Some uid), init s).
Proof.
  unfold authenticate, verifyIdTokenFromReq. intros H.
  destruct (String.prefix "Bearer " (default "" (authorization req))); [|discriminate].
  cbn [negb]. unfold try_catch, bind, admin_verifyIdToken.
  destruct (split_1 "Bearer " (default "" (authorization req))) as [t|]; [|discriminate].
  cbn in H. rewrite H. reflexivity.
Qed.

Lemma verifyIdTokenFromReq_refuses E req s :
  authenticate E req = None ->
  exists evs, In evs refusals /\
    verifyIdTokenFromReq E req (init s) =
      (inl None, {| db := s; pending := []; log := evs |}).
Proof.
  unfold authenticate, verifyIdTokenFromReq. intros H.
  destruct (String.prefix "Bearer " (default "" (authorization req))).
  - eexists. split; [right; left; reflexivity|].
    cbn [negb]. unfold try_catch, bind, admin_verifyIdToken.
    destruct (split_1 "Bearer " (default "" (authorization req))) as [t|]; [|reflexivity].
    cbn in H. rewrite H. reflexivity.
  - eexists. split; [left; reflexivity|]. reflexivity.
Qed.

(** Enter a handler whose token verifies, then pass or fail the userId
    check. *)
Ltac enter_handler h Ha :=
  unfold run, h, try_catch, bind;
  rewrite (verifyIdTokenFromReq_ok _ _ _ _ Ha).

Ltac decide_userId Hm :=
  match goal with
  | |- context [negb (ToBoolean ?v) || strict_ne ?v ?u] => fold (mismatch v u)
  end;
  rewrite Hm.

(** Pass the two points checks, given that they refuse nothing. *)
Ltac pass_points Hp :=
  unfold points_refused in Hp;
  match type of Hp with
  | (if ?c then _ else _) = None => destruct c; [discriminate|]
  end;
  match type of Hp with
  | (if ?c then _ else _) = None => destruct c; [discriminate|]
  end.

(** *** applyAdReward *)

Lemma default_lookup (s : firestore) (uid name : string) :
  default (∅ : gmap string fsval) (users s !! uid) !! name = field s uid name.
Proof. unfold field. destruct (users s !! uid); [reflexivity|apply lookup_empty]. Qed.

Lemma applyAdReward_refuses E req s :
  authenticate E req = None ->
  exists evs, In evs refusals /\
    run (applyAdReward E req) s = (inl tt, {| db := s; pending := []; log := evs |}).
Proof.
  intros H. destruct (verifyIdTokenFromReq_refuses E req s H) as (evs & Hin & Hrun).
  exists evs. split; [exact Hin|].
  unfold run, applyAdReward, try_catch, bind. rewrite Hrun. reflexivity.
Qed.

Lemma applyAdReward_mismatch E req s uid :
  authenticate E req = Some uid ->
  mismatch (userId (body_or_empty req)) uid = true ->
  run (applyAdReward E req) s =
    (inl tt, {| db := s; pending := []; log := [Json 400 (Failure "userId mismatch")] |}).
Proof.
  intros H Hm. enter_handler applyAdReward H. decide_userId Hm. reflexivity.
Qed.

Lemma applyAdReward_claimed E req s uid :
  authenticate E req = Some uid ->
  mismatch (userId (body_or_empty req)) uid = false ->
  field_is (field s uid "lastAdShown") (dayKey E) = true ->
  run (applyAdReward E req) s =
    (inr ERR_HTTP_HEADERS_SENT,
     {| db := s; pending := [];
        log := claimed_log uid s ++
               [ConsoleError "applyAdReward error:"; Json 500 (Failure "server_error")] |}).
Proof.
  intros H Hm Hc. enter_handler applyAdReward H. decide_userId Hm.
  unfold runTransaction, bind, tx_get. cbn [db pending log init app].
  rewrite default_lookup, Hc. reflexivity.
Qed.

Lemma applyAdReward_awards E req s uid :
  authenticate E req = Some uid ->
  mismatch (userId (body_or_empty req)) uid = false ->
  field_is (field s uid "lastAdShown") (dayKey E) = false ->
  exists s', commit (serverTime E) (ad_writes E uid) s = Some s' /\
    run (applyAdReward E req) s =
      (inl tt, {| db := s'; pending := [];
                  log := award_log uid (ad_writes E uid) (VNum (NInt 100)) s' |}).
Proof.
  intros H Hm Hc. eexists. split; [reflexivity|].
  enter_handler applyAdReward H. decide_userId Hm.
  unfold runTransaction, bind, tx_get. cbn [db pending log init app].
  rewrite default_lookup, Hc. reflexivity.
Qed.

(** *** awardGamePoints *)

Lemma num_lt_int a b : num_lt (NInt a) (NInt b) = (a <? b).
Proof. cbn. rewrite !Z.mul_1_r. reflexivity. Qed.

Lemma points_refused_valid v : points_refused v = None <-> valid_points v.
Proof.
  unfold points_refused, valid_points, MAX_POINTS_PER_CALL, less_eq, greater, less, isNaN.
  split.
  - destruct v as [| |b|[z|m k| |sg]|t|l|fs]; cbn [Number_isInteger negb orb ToNumber];
      try discriminate.
    rewrite !num_lt_int. cbn [negb andb].
    destruct (0 <? z) eqn:H0; cbn [negb andb]; [|discriminate].
    destruct (1000 <? z) eqn:H1; [discriminate|]. intros _.
    exists z. split; [reflexivity|]. lia.
  - intros (p & -> & Hp). cbn [Number_isInteger negb orb ToNumber].
    rewrite !num_lt_int.
    replace (0 <? p) with true by (symmetry; apply Z.ltb_lt; lia).
    replace (1000 <? p) with false by (symmetry; apply Z.ltb_ge; lia).
    reflexivity.
Qed.

Lemma points_refused_invalid v :
  ~ valid_points v ->
  points_refused v = Some "invalid points" \/ points_refused v = Some "points_too_large".
Proof.
  intros Hv. destruct (points_refused v) as [e|] eqn:He.
  - unfold points_refused in He.
    destruct (negb (Number_isInteger v) || less_eq v (VNum (NInt 0))).
    + left. congruence.
    + destruct (greater v MAX_POINTS_PER_CALL); [right; congruence|discriminate].
  - apply points_refused_valid in He. contradiction.
Qed.

(** The level check raises, or it does not. *)
Lemma coerce_level_passes v st :
  level_raises v = false ->
  (if ToBoolean v then coerce v else ret tt) st = (inl tt, st).
Proof.
  unfold level_raises, coerce. destruct (ToBoolean v); [|reflexivity].
  cbn [andb]. intros ->. reflexivity.
Qed.

Lemma coerce_level_raises v st :
  level_raises v = true ->
  (if ToBoolean v then coerce v else ret tt) st = (inr TypeError, st).
Proof.
  unfold level_raises, coerce. destruct (ToBoolean v); [|discriminate].
  cbn [andb]. intros ->. reflexivity.
Qed.

(** A level that is not refused does not raise either: the handler gets
    to its check of the level only when the level is a primitive or can
    be made one. *)
Lemma level_accepted_no_raise v : level_refused v = false -> level_raises v = false.
Proof.
  unfold level_refused, level_raises, isNaN. destruct (ToBoolean v); [|reflexivity].
  cbn [andb]. destruct v as [| |b|n|t|l|fs]; try reflexivity; unfold ToNumber;
    destruct (raises _); try reflexivity; discriminate.
Qed.

(** A primitive never raises, and the store takes it. *)
Lemma primitive_level v : primitive v = true -> level_raises v = false.
Proof. destruct v; try discriminate; intros _; apply andb_false_r. Qed.


Lemma awardGamePoints_refuses E req s :
  authenticate E req = None ->
  exists evs, In evs refusals /\
    run (awardGamePoints E req) s = (inl tt, {| db := s; pending := []; log := evs |}).
Proof.
  intros H. destruct (verifyIdTokenFromReq_refuses E req s H) as (evs & Hin & Hrun).
  exists evs. split; [exact Hin|].
  unfold run, awardGamePoints, try_catch, bind. rewrite Hrun. reflexivity.
Qed.

Lemma awardGamePoints_mismatch E req s uid :
  authenticate E req = Some uid ->
  mismatch (userId (body_or_empty req)) uid = true ->
  run (awardGamePoints E req) s =
    (inl tt, {| db := s; pending := []; log := [Json 400 (Failure "userId mismatch")] |}).
Proof.
  intros H Hm. enter_handler awardGamePoints H. decide_userId Hm. reflexivity.
Qed.

Lemma awardGamePoints_bad_points E req s uid err :
  authenticate E req = Some uid ->
  mismatch (userId (body_or_empty req)) uid = false ->
  points_refused (points (body_or_empty req)) = Some err ->
  run (awardGamePoints E req) s =
    (inl tt, {| db := s; pending := []; log := [Json 400 (Failure err)] |}).
Proof.
  intros H Hm Hp. enter_handler awardGamePoints H. decide_userId Hm.
  unfold points_refused in Hp.
  destruct (negb (Number_isInteger (points (body_or_empty req)))
            || less_eq (points (body_or_empty req)) (VNum (NInt 0))).
  - injection Hp as <-. reflexivity.
  - destruct (greater (points (body_or_empty req)) MAX_POINTS_PER_CALL); [|discriminate].
    injection Hp as <-. reflexivity.
Qed.

Lemma awardGamePoints_level_error E req s uid :
  authenticate E req = Some uid ->
  mismatch (userId (body_or_empty req)) uid = false ->
  points_refused (points (body_or_empty req)) = None ->
  level_raises (level (body_or_empty req)) = true ->
  run (awardGamePoints E req) s =
    (inl tt, {| db := s; pending := []; log := level_error_log |}).
Proof.
  intros H Hm Hp Hx. enter_handler awardGamePoints H. decide_userId Hm.
  pass_points Hp. rewrite (coerce_level_raises _ _ Hx). reflexivity.
Qed.

Lemma awardGamePoints_bad_level E req s uid :
  authenticate E req = Some uid ->
  mismatch (userId (body_or_empty req)) uid = false ->
  points_refused (points (body_or_empty req)) = None ->
  level_raises (level (body_or_empty req)) = false ->
  level_refused (level (body_or_empty req)) = true ->
  run (awardGamePoints E req) s =
    (inl tt, {| db := s; pending := []; log := [Json 400 (Failure "invalid level")] |}).
Proof.
  intros H Hm Hp Hx Hl. enter_handler awardGamePoints H. decide_userId Hm.
  pass_points Hp. rewrite (coerce_level_passes _ _ Hx).
  fold (level_refused (level (body_or_empty req))). rewrite Hl. reflexivity.
Qed.

Lemma awardGamePoints_refused_write E req s uid :
  authenticate E req = Some uid ->
  mismatch (userId (body_or_empty req)) uid = false ->
  points_refused (points (body_or_empty req)) = None ->
  level_raises (level (body_or_empty req)) = false ->
  level_refused (level (body_or_empty req)) = false ->
  record_storable E (totalScore (body_or_empty req)) = false ->
  run (awardGamePoints E req) s =
    (inl tt, {| db := s; pending := []; log := refused_write_log uid |}).
Proof.
  intros H Hm Hp Hx Hl Hs. enter_handler awardGamePoints H. decide_userId Hm.
  pose proof Hp as Hv. apply points_refused_valid in Hv. destruct Hv as (p & Hv & Hr).
  pass_points Hp. rewrite (coerce_level_passes _ _ Hx).
  fold (level_refused (level (body_or_empty req))). rewrite Hl.
  unfold runTransaction, bind, tx_get. cbn [db pending log init app].
  unfold record_storable in Hs. cbn -[or_else] in Hs.
  destruct (users s !! uid) as [d|] eqn:Hd;
    unfold tx_update, tx_set, buffer; rewrite Hv;
    cbn -[game_text merge_fields or_else]; rewrite Hs; reflexivity.
Qed.

Lemma awardGamePoints_awards E req s uid :
  authenticate E req = Some uid ->
  mismatch (userId (body_or_empty req)) uid = false ->
  points_refused (points (body_or_empty req)) = None ->
  level_raises (level (body_or_empty req)) = false ->
  level_refused (level (body_or_empty req)) = false ->
  record_storable E (totalScore (body_or_empty req)) = true ->
  let b := body_or_empty req in
  let ws := game_writes b uid (bool_decide (is_Some (users s !! uid))) in
  exists s', commit (serverTime E) ws s = Some s' /\
    run (awardGamePoints E req) s =
      (inl tt, {| db := s'; pending := []; log := award_log uid ws (points b) s' |}).
Proof.
  intros H Hm Hp Hx Hl Hs b ws. subst ws b.
  enter_handler awardGamePoints H. decide_userId Hm.
  pose proof Hp as Hv. apply points_refused_valid in Hv. destruct Hv as (p & Hv & Hr).
  pass_points Hp. rewrite (coerce_level_passes _ _ Hx).
  fold (level_refused (level (body_or_empty req))). rewrite Hl.
  unfold runTransaction, bind, tx_get. cbn [db pending log init app].
  unfold record_storable in Hs. cbn -[or_else] in Hs.
  destruct (users s !! uid) as [d|] eqn:Hd.
  - rewrite bool_decide_eq_true_2 by eauto.
    unfold tx_update, tx_set, buffer, game_writes. rewrite Hv.
    cbn -[game_text merge_fields or_else]. rewrite Hs.
    cbn -[game_text merge_fields or_else]. rewrite !Hd.
    eexists. split; reflexivity.
  - rewrite bool_decide_eq_false_2 by (intros [? ?]; discriminate).
    unfold tx_update, tx_set, buffer, game_writes. rewrite Hv.
    cbn -[game_text merge_fields or_else]. rewrite Hs.
    eexists. split; reflexivity.
Qed.

(** *** What the committed batches do to the store *)

Lemma commit_ad_writes E uid s :
  commit (serverTime E) (ad_writes E uid) s =
    Some (awarded (serverTime E) uid
            [("points", Increment (VNum (NInt 100)));
             ("lastAdShown", Plain (FPrim (VStr (dayKey E))))]
            [("text", Plain (FPrim (VStr "Watched daily ad +100 pts (server)")));
             ("time", ServerTimestamp)] s).
Proof. reflexivity. Qed.

Lemma commit_game_writes t b uid s :
  commit t (game_writes b uid (bool_decide (is_Some (users s !! uid)))) s =
    Some (awarded t uid [("points", Increment (points b))]
            [("text", Plain (FPrim (VStr (game_text (points b) (level b)))));
             ("time", ServerTimestamp);
             ("totalScore", Plain (FPrim (or_else (totalScore b) VNull)))] s).
Proof.
  unfold game_writes, awarded. destruct (users s !! uid) as [d|] eqn:Hd.
  - rewrite bool_decide_eq_true_2 by eauto. cbn -[merge_fields game_text or_else].
    rewrite Hd. reflexivity.
  - rewrite bool_decide_eq_false_2 by (intros [? ?]; discriminate).
    cbn -[merge_fields game_text or_else]. rewrite Hd. reflexivity.
Qed.

Lemma field_awarded_other t uid udata adata s u name :
  u <> uid -> field (awarded t uid udata adata s) u name = field s u name.
Proof.
  intros Hne. unfold field, awarded. cbn [users].
  rewrite lookup_insert_ne by congruence. reflexivity.
Qed.

Lemma field_awarded_same t uid udata adata s name :
  field (awarded t uid udata adata s) uid name =
    merge_fields t (default ∅ (users s !! uid)) udata !! name.
Proof. unfold field, awarded. cbn [users]. rewrite lookup_insert_eq. reflexivity. Qed.

Lemma audits_awarded_same t uid udata adata s :
  audits (awarded t uid udata adata s) uid =
    (audits s uid ++ [merge_fields t ∅ adata])%list.
Proof. unfold audits at 1, awarded. cbn [activities]. rewrite lookup_insert_eq. reflexivity. Qed.

Lemma audits_awarded_other t uid udata adata s u :
  u <> uid -> audits (awarded t uid udata adata s) u = audits s u.
Proof.
  intros Hne. unfold audits at 1, awarded. cbn [activities].
  rewrite lookup_insert_ne by congruence. reflexivity.
Qed.

(** A merge leaves the fields it does not name as they were. *)
Lemma merge_fields_frame t data (d : gmap string fsval) name :
  ~ In name (map fst data) -> merge_fields t d data !! name = d !! name.
Proof.
  unfold merge_fields. revert d.
  induction data as [|[k f] data IH]; intros d Hn; [reflexivity|].
  cbn [fold_left fst snd]. rewrite IH.
  - apply lookup_insert_ne. intros ->. apply Hn. left. reflexivity.
  - intros Hin. apply Hn. right. exact Hin.
Qed.

(** An integer increment of a well-typed total adds to it. *)
Lemma resolve_increment t cur n :
  integral cur = true ->
  resolve t cur (Increment (VNum (NInt n))) = FPrim (VNum (NInt (total_of cur + n))).
Proof.
  intros Hi. destruct cur as [[[| |b|[z|m k| |sg]|str|l|fs]|ts|o]|];
    cbn in *; try discriminate; reflexivity.
Qed.

Lemma points_after_award t uid n rest adata s :
  ~ In "points" (map fst rest) ->
  integral (field s uid "points") = true ->
  field (awarded t uid (("points", Increment (VNum (NInt n))) :: rest) adata s) uid "points"
    = Some (FPrim (VNum (NInt (pointTotal s uid + n)))).
Proof.
  intros Hn Hi. rewrite field_awarded_same. unfold merge_fields. cbn [fold_left fst snd].
  fold (merge_fields t (<["points" := resolve t (default ∅ (users s !! uid) !! "points")
                                        (Increment (VNum (NInt n)))]>
                          (default ∅ (users s !! uid))) rest).
  rewrite merge_fields_frame by exact Hn.
  rewrite lookup_insert_eq, default_lookup, resolve_increment by exact Hi.
  reflexivity.
Qed.

(** *** Every call takes one of the paths *)

Lemma field_is_spec (f : option fsval) (dk : string) :
  field_is f dk = true <-> f = Some (FPrim (VStr dk)).
Proof.
  unfold field_is, strict_eq. split.
  - destruct f as [[[| |b|n|t|l|fs]|ts|o]|]; try discriminate.
    intros H. apply String.eqb_eq in H. subst t. reflexivity.
  - intros ->. apply String.eqb_refl.
Qed.

Lemma applyAdReward_outcome E req s :
  outcome E req s AdReward (run (applyAdReward E req) s).
Proof.
  destruct (authenticate E req) as [uid|] eqn:Ha.
  - destruct (mismatch (userId (body_or_empty req)) uid) eqn:Hm.
    + rewrite (applyAdReward_mismatch E req s uid Ha Hm).
      apply (out_bad_request E req s AdReward uid); [exact Ha|left; reflexivity].
    + destruct (mismatch_false _ _ Hm) as [Hu _].
      destruct (field_is (field s uid "lastAdShown") (dayKey E)) eqn:Hc.
      * rewrite (applyAdReward_claimed E req s uid Ha Hm Hc).
        apply out_claimed; [exact Ha|exact Hu|apply field_is_spec, Hc].
      * destruct (applyAdReward_awards E req s uid Ha Hm Hc) as (s' & Hs' & ->).
        rewrite commit_ad_writes in Hs'. injection Hs' as <-.
        apply out_ad_award; [exact Ha|exact Hu|].
        intros Hf. apply field_is_spec in Hf. congruence.
  - destruct (applyAdReward_refuses E req s Ha) as (evs & Hin & ->).
    apply out_unauthorized; assumption.
Qed.

Lemma awardGamePoints_outcome E req s :
  outcome E req s GamePoints (run (awardGamePoints E req) s).
Proof.
  destruct (authenticate E req) as [uid|] eqn:Ha.
  - destruct (mismatch (userId (body_or_empty req)) uid) eqn:Hm.
    + rewrite (awardGamePoints_mismatch E req s uid Ha Hm).
      apply (out_bad_request E req s GamePoints uid); [exact Ha|left; reflexivity].
    + destruct (mismatch_false _ _ Hm) as [Hu _].
      destruct (points_refused (points (body_or_empty req))) as [err|] eqn:Hp.
      * rewrite (awardGamePoints_bad_points E req s uid err Ha Hm Hp).
        apply (out_bad_request E req s GamePoints uid); [exact Ha|].
        unfold points_refused in Hp.
        destruct (negb _ || _); [injection Hp as <-; right; left; reflexivity|].
        destruct (greater _ _); [injection Hp as <-; right; right; left; reflexivity|discriminate].
      * destruct (level_raises (level (body_or_empty req))) eqn:Hx.
        { rewrite (awardGamePoints_level_error E req s uid Ha Hm Hp Hx).
          apply (out_level_error E req s uid); assumption. }
        destruct (level_refused (level (body_or_empty req))) eqn:Hl.
        { rewrite (awardGamePoints_bad_level E req s uid Ha Hm Hp Hx Hl).
          apply (out_bad_request E req s GamePoints uid); [exact Ha|].
          do 3 right. left. reflexivity. }
        destruct (record_storable E (totalScore (body_or_empty req))) eqn:Hs.
        -- destruct (awardGamePoints_awards E req s uid Ha Hm Hp Hx Hl Hs) as (s' & Hs' & ->).
           rewrite commit_game_writes in Hs'. injection Hs' as <-.
           apply points_refused_valid in Hp. destruct Hp as (p & Hv & Hr).
           pose proof (out_game_award E req s uid p Ha Hu Hv Hr) as Ho.
           cbv zeta in Ho. rewrite Hv in Ho |- *. exact Ho.
        -- rewrite (awardGamePoints_refused_write E req s uid Ha Hm Hp Hx Hl Hs).
           apply (out_refused_write E req s uid); assumption.
  - destruct (awardGamePoints_refuses E req s Ha) as (evs & Hin & ->).
    apply out_unauthorized; assumption.
Qed.

Lemma run_outcome E c req s : outcome E req s c (run (handler c E req) s).
Proof. destruct c; [apply applyAdReward_outcome|apply awardGamePoints_outcome]. Qed.

(* ===================================================================== *)
(** ** The reward transaction: properties *)
(* ===================================================================== *)

Lemma or_zero_int z : or_zero (Some (FPrim (VNum (NInt z)))) = FPrim (VNum (NInt z)).
Proof.
  unfold or_zero, truthy, ToBoolean. destruct (Z.eqb_spec z 0) as [->|]; reflexivity.
Qed.

Lemma replies_award_log uid ws added s' :
  replies (award_log uid ws added s') = [(200, Awarded added (newPoints (users s' !! uid)))].
Proof. reflexivity. Qed.

Lemma safe_total_integral f n : safe_total f n -> integral f = true.
Proof.
  destruct f as [[[| |b|[z|m k| |sg]|str|l|fs]|ts|o]|]; cbn; intros H;
    try reflexivity; contradiction.
Qed.

(** A safe total lies in the safe range, with room for [n]. *)
Lemma safe_total_floor f n : safe_total f n -> - MAX_SAFE_INTEGER <= total_of f.
Proof.
  unfold safe_total, MAX_SAFE_INTEGER. change (2 ^ 53 - 1) with 9007199254740991.
  destruct f as [[[| |b|[z|m k| |sg]|str|l|fs]|ts|o]|]; cbn [total_of]; intros H;
    try contradiction; lia.
Qed.

Lemma safe_total_bounds f n :
  1 <= n <= 1000 -> safe_total f n -> total_of f + n <= MAX_SAFE_INTEGER.
Proof.
  unfold safe_total, MAX_SAFE_INTEGER. change (2 ^ 53 - 1) with 9007199254740991.
  destruct f as [[[| |b|[z|m k| |sg]|str|l|fs]|ts|o]|]; cbn [total_of]; intros Hn H;
    try contradiction; lia.
Qed.

(** The response reports the total the award has just stored. *)
Lemma newPoints_after_award s' uid z :
  field s' uid "points" = Some (FPrim (VNum (NInt z))) ->
  newPoints (users s' !! uid) = FPrim (VNum (NInt z)).
Proof.
  unfold field, newPoints. destruct (users s' !! uid) as [d|]; [|discriminate].
  cbn. intros ->. apply or_zero_int.
Qed.

(** C5: when the subject of the verified token differs from the userId
    of the body (a missing userId included), both handlers answer
    400 "userId mismatch" and nothing else happens: the store is as it
    was, no transaction is opened, no audit record is written. *)
Theorem C5_userId_mismatch E req s uid :
  authenticate E req = Some uid ->
  userId (body_or_empty req) <> VStr uid ->
  run (applyAdReward E req) s =
    (inl tt, {| db := s; pending := [];
                log := [Json 400 (Failure "userId mismatch")] |}) /\
  run (awardGamePoints E req) s =
    (inl tt, {| db := s; pending := [];
                log := [Json 400 (Failure "userId mismatch")] |}).
Proof.
  intros Ha Hne. pose proof (mismatch_other _ _ Hne) as Hm. split.
  - apply (applyAdReward_mismatch E req s uid); assumption.
  - apply (awardGamePoints_mismatch E req s uid); assumption.
Qed.

(** A request of alice that names no userId at all is refused by both
    handlers. *)
Lemma C5_witness :
  run (applyAdReward Scenario.world
         {| authorization := Some "Bearer token-of-alice"; req_body := None |})
      Scenario.claimed_today =
    (inl tt, {| db := Scenario.claimed_today; pending := [];
                log := [Json 400 (Failure "userId mismatch")] |}) /\
  run (awardGamePoints Scenario.world
         {| authorization := Some "Bearer token-of-alice"; req_body := None |})
      Scenario.claimed_today =
    (inl tt, {| db := Scenario.claimed_today; pending := [];
                log := [Json 400 (Failure "userId mismatch")] |}).
Proof.
  apply (C5_userId_mismatch Scenario.world
           {| authorization := Some "Bearer token-of-alice"; req_body := None |}
           Scenario.claimed_today "alice").
  - reflexivity.
  - discriminate.
Defined.




(** C10: on the "already claimed" path of applyAdReward the 200 ok:false
    response is sent inside the transaction callback (between the read
    of the transaction and its commit, which writes nothing); the handler
    then goes on to the code after the transaction, reads the record
    again and asks for a second response on the same request: 200 with
    ok:true, added:100 and the current point total. *)
Theorem C10_second_response_after_already_claimed E req s uid :
  authenticate E req = Some uid ->
  uid <> "" ->
  userId (body_or_empty req) = VStr uid ->
  field s uid "lastAdShown" = Some (FPrim (VStr (dayKey E))) ->
  exists rest,
    log (run (applyAdReward E req) s).2 =
      ([ TxBegin; TxGet uid;
         Json 200 (Failure "Already claimed today");
         TxCommit [];
         Get uid;
         Json 200 (Awarded (VNum (NInt 100)) (or_zero (field s uid "points"))) ]
       ++ rest)%list.
Proof.
  intros Ha Hne Hu Hk.
  assert (Hm : mismatch (userId (body_or_empty req)) uid = false)
    by (rewrite Hu; apply mismatch_same, Hne).
  apply field_is_spec in Hk as Hc.
  rewrite (applyAdReward_claimed E req s uid Ha Hm Hc). cbn [snd log].
  eexists. unfold claimed_log, newPoints.
  unfold field in Hk |- *. destruct (users s !! uid) as [d|]; [|discriminate].
  reflexivity.
Qed.

(** Alice asks for the ad reward a second time on 2 November 2026. *)
Lemma C10_witness :
  exists rest,
    log (run (applyAdReward Scenario.world (Scenario.from_alice Scenario.just_userId))
             Scenario.claimed_today).2 =
      ([ TxBegin; TxGet "alice";
         Json 200 (Failure "Already claimed today");
         TxCommit [];
         Get "alice";
         Json 200 (Awarded (VNum (NInt 100)) (FPrim (VNum (NInt 100)))) ]
       ++ rest)%list.
Proof.
  apply (C10_second_response_after_already_claimed Scenario.world
           (Scenario.from_alice Scenario.just_userId) Scenario.claimed_today "alice").
  - reflexivity.
  - discriminate.
  - reflexivity.
  - reflexivity.
Defined.

(** C1, at alice's second call of the day: the total and the audit log
    stay as they were and the client receives 200 ok:false "Already
    claimed today"; but that response is not the only one the handler
    asks for.  It goes on to ask for 200 ok:true added:100, which Express
    refuses, then for the 500 of its catch block, refused as well, and
    ends with the exception. *)
Theorem C1_already_claimed_run :
  let r := run (applyAdReward Scenario.world (Scenario.from_alice Scenario.just_userId))
               Scenario.claimed_today in
  db r.2 = Scenario.claimed_today /\
  pointTotal (db r.2) "alice" = 100 /\
  audits (db r.2) "alice" = [] /\
  delivered (log r.2) = Some (200, Failure "Already claimed today") /\
  replies (log r.2) =
    [ (200, Failure "Already claimed today");
      (200, Awarded (VNum (NInt 100)) (FPrim (VNum (NInt 100))));
      (500, Failure "server_error") ] /\
  r.1 = inr ERR_HTTP_HEADERS_SENT.
Proof. cbv zeta. repeat split; vm_compute; reflexivity. Qed.

(** C3 as stated fails: a call without an Authorization header and with
    points 0 is answered 401, not 400. *)
Lemma C3_unauthorized_call_gets_401 :
  let req := Scenario.anonymous (Scenario.game (VNum (NInt 0)) VUndefined) in
  let r := run (awardGamePoints Scenario.world req) Firestore.no_documents in
  ~ valid_points (points (body_or_empty req)) /\
  delivered (log r.2) = Some (401, Failure "Missing or invalid Authorization header") /\
  ~ (exists body, delivered (log r.2) = Some (400, body)).
Proof.
  cbv zeta. split; [|split].
  - intros (p & Hp & Hr). cbn in Hp. injection Hp as <-. lia.
  - reflexivity.
  - intros (body & Hb). vm_compute in Hb. discriminate.
Qed.

(** C3, amended: when points is not an integer, is at most 0 or exceeds
    1000, awardGamePoints leaves the store as it was, opens no
    transaction and answers exactly once, with a refusal: 400 and one of
    the reason codes "userId mismatch", "invalid points",
    "points_too_large" when the bearer token verifies, 401 when it does
    not. *)
Theorem C3_invalid_points_rejected_before_transaction E req s :
  ~ valid_points (points (body_or_empty req)) ->
  let r := run (awardGamePoints E req) s in
  r.1 = inl tt /\
  db r.2 = s /\
  opens_transaction (log r.2) = false /\
  exists status err,
    replies (log r.2) = [(status, Failure err)] /\
    match authenticate E req with
    | Some _ =>
        status = 400 /\
        In err ["userId mismatch"; "invalid points"; "points_too_large"]
    | None => status = 401
    end.
Proof.
  intros Hv r. subst r.
  destruct (authenticate E req) as [uid|] eqn:Ha.
  - destruct (mismatch (userId (body_or_empty req)) uid) eqn:Hm.
    + rewrite (awardGamePoints_mismatch E req s uid Ha Hm).
      repeat split. exists 400, "userId mismatch".
      split; [reflexivity|]. split; [reflexivity|]. left. reflexivity.
    + destruct (points_refused_invalid _ Hv) as [Hp|Hp];
        rewrite (awardGamePoints_bad_points E req s uid _ Ha Hm Hp);
        repeat split; eexists 400, _; (split; [reflexivity|]);
        (split; [reflexivity|]); cbn; auto.
  - destruct (awardGamePoints_refuses E req s Ha) as (evs & Hin & ->).
    destruct Hin as [<-|[<-|[]]]; repeat split; eexists 401, _; split; reflexivity.
Qed.

(** Alice sends 1001 points: refused with 400 "points_too_large". *)
Lemma C3_witness :
  let r := run (awardGamePoints Scenario.world
                  (Scenario.from_alice (Scenario.game (VNum (NInt 1001)) VUndefined)))
               Scenario.claimed_today in
  r.1 = inl tt /\
  db r.2 = Scenario.claimed_today /\
  opens_transaction (log r.2) = false /\
  exists status err,
    replies (log r.2) = [(status, Failure err)] /\
    status = 400 /\
    In err ["userId mismatch"; "invalid points"; "points_too_large"].
Proof.
  apply (C3_invalid_points_rejected_before_transaction Scenario.world
           (Scenario.from_alice (Scenario.game (VNum (NInt 1001)) VUndefined))
           Scenario.claimed_today).
  intros (p & Hp & Hr). cbn in Hp. injection Hp as <-. lia.
Defined.

(** The level check refuses exactly the truthy levels whose Number is
    NaN, negative or above 500. *)
Lemma level_refused_spec v : level_refused v = true <-> ~ level_passes v.
Proof.
  unfold level_refused, level_passes, MAX_LEVEL_ALLOWED, greater, less, isNaN.
  change (ToNumber (VNum (NInt 0))) with (NInt 0).
  change (ToNumber (VNum (NInt 500))) with (NInt 500).
  destruct (ToBoolean v).
  2:{ split; [discriminate|intros H; exfalso; apply H; left; reflexivity]. }
  cbn [andb]. destruct (ToNumber v) as [z|m k| |sg]; cbn [from_0_to_500 orb].
  - rewrite !num_lt_int. split.
    + intros H [H'|H']; [discriminate|]. apply orb_true_iff in H.
      rewrite !Z.ltb_lt in H. lia.
    + intros H. apply orb_true_iff. rewrite !Z.ltb_lt.
      destruct (Z.lt_ge_cases z 0); [auto|]. destruct (Z.lt_ge_cases 500 z); [auto|].
      exfalso. apply H. right. lia.
  - cbn [num_lt mantissa frac_digits]. rewrite Z.pow_0_r, !Z.mul_1_r. split.
    + intros H [H'|H']; [discriminate|]. apply orb_true_iff in H.
      rewrite !Z.ltb_lt in H. lia.
    + intros H. apply orb_true_iff. rewrite !Z.ltb_lt.
      destruct (Z.lt_ge_cases m 0); [lia|].
      destruct (Z.lt_ge_cases (500 * 10 ^ Z.pos k) m); [auto|].
      exfalso. apply H. right. lia.
  - split; [intros _ [H|[]]; discriminate|reflexivity].
  - split; [intros _ [H|[]]; discriminate|intros _]. destruct sg; reflexivity.
Qed.

Lemma level_refused_false v : level_passes v -> level_refused v = false.
Proof.
  intros H. destruct (level_refused v) eqn:Hr; [|reflexivity].
  apply level_refused_spec in Hr. contradiction.
Qed.

(** C4 as stated fails in five ways.  With alice's token, her userId and
    50 points: the level 3.5 is not an integer, the level [true] is not
    a number and the level [""] is given but empty, and each call is
    accepted (200 ok:true, an audit record that reads "level 3.5",
    "level true", "level ?"); the level [{"toString": 1}] cannot be
    made a primitive, and the answer is 500 "server_error", not 400.
    And without a token the level -1 is answered 401, not 400. *)
Lemma C4_levels_the_claim_misjudges :
  let award l := run (awardGamePoints Scenario.world
                        (Scenario.from_alice (Scenario.game (VNum (NInt 50)) l)))
                     Firestore.no_documents in
  let accepted l text :=
    replies (log (award l).2) =
      [(200, Awarded (VNum (NInt 50)) (FPrim (VNum (NInt 50))))] /\
    pointTotal (db (award l).2) "alice" = 50 /\
    (exists a, audits (db (award l).2) "alice" = [a] /\
               a !! "text" = Some (FPrim (VStr text))) in
  (Number_isInteger (VNum (NDec 35 1)) = false /\
   accepted (VNum (NDec 35 1)) "Game: +50 pts (level 3.5)") /\
  accepted (VBool true) "Game: +50 pts (level true)" /\
  accepted (VStr "") "Game: +50 pts (level ?)" /\
  (replies (log (award (VObj [("toString", VNum (NInt 1))])).2) =
     [(500, Failure "server_error")] /\
   db (award (VObj [("toString", VNum (NInt 1))])).2 = Firestore.no_documents) /\
  replies (log (run (awardGamePoints Scenario.world
                       (Scenario.anonymous
                          (Scenario.game (VNum (NInt 50)) (VNum (NInt (-1))))))
                    Firestore.no_documents).2) =
    [(401, Failure "Missing or invalid Authorization header")].
Proof.
  cbv zeta. repeat split; try reflexivity; eexists; split; reflexivity.
Qed.

(** C4, amended: with a verified token, a matching userId and valid
    points, the level decides as follows.  A level that is truthy and
    cannot be made a primitive makes the check itself throw: the answer
    is 500 "server_error".  Any other level is refused with 400
    "invalid level" unless it passes, that is unless it is falsy (which
    the handler takes for a level not given) or its Number lies between
    0 and 500, integer or not; so a level whose Number is NaN, negative
    or above 500 is refused.  In both cases nothing else happens.  A
    level that passes is not refused: the transaction is opened, and
    unless the store refuses the totalScore the answer is 200 ok:true
    and one audit record is added. *)
Theorem C4_level_check E req s uid :
  authenticate E req = Some uid ->
  uid <> "" ->
  userId (body_or_empty req) = VStr uid ->
  valid_points (points (body_or_empty req)) ->
  let lv := level (body_or_empty req) in
  let r := run (awardGamePoints E req) s in
  (level_raises lv = true ->
     r = (inl tt, {| db := s; pending := []; log := level_error_log |})) /\
  (level_raises lv = false -> ~ level_passes lv ->
     r = (inl tt, {| db := s; pending := [];
                     log := [Json 400 (Failure "invalid level")] |})) /\
  (level_raises lv = false -> level_passes lv ->
     opens_transaction (log r.2) = true /\
     (forall status, ~ In (status, Failure "invalid level") (replies (log r.2))) /\
     (record_storable E (totalScore (body_or_empty req)) = true ->
        (exists total, replies (log r.2) =
                         [(200, Awarded (points (body_or_empty req)) total)]) /\
        length (audits (db r.2) uid) = S (length (audits s uid)))).
Proof.
  intros Ha Hne Hu Hv lv r. subst lv r.
  assert (Hm : mismatch (userId (body_or_empty req)) uid = false)
    by (rewrite Hu; apply mismatch_same, Hne).
  apply points_refused_valid in Hv.
  split; [|split].
  - intros Hx. apply (awardGamePoints_level_error E req s uid Ha Hm Hv Hx).
  - intros Hx Hb. apply (awardGamePoints_bad_level E req s uid Ha Hm Hv Hx).
    apply level_refused_spec, Hb.
  - intros Hx Hb. pose proof (level_refused_false _ Hb) as Hr.
    destruct (record_storable E (totalScore (body_or_empty req))) eqn:Hs.
    + destruct (awardGamePoints_awards E req s uid Ha Hm Hv Hx Hr Hs) as (s' & Hs' & ->).
      rewrite commit_game_writes in Hs'. injection Hs' as <-. cbn [snd db log].
      split; [reflexivity|]. split.
      * intros status [H|[]]. discriminate.
      * intros _. split; [eexists; apply replies_award_log|].
        rewrite audits_awarded_same, length_app. cbn. lia.
    + rewrite (awardGamePoints_refused_write E req s uid Ha Hm Hv Hx Hr Hs). cbn [snd db log].
      split; [reflexivity|]. split; [|discriminate].
      intros status [H|[]]. discriminate.
Qed.

(** Alice, 50 points, level "abc": not a number, refused. *)
Lemma C4_witness :
  let r := run (awardGamePoints Scenario.world
                  (Scenario.from_alice (Scenario.game (VNum (NInt 50)) (VStr "abc"))))
               Firestore.no_documents in
  r = (inl tt, {| db := Firestore.no_documents; pending := [];
                  log := [Json 400 (Failure "invalid level")] |}).
Proof.
  apply (C4_level_check Scenario.world
           (Scenario.from_alice (Scenario.game (VNum (NInt 50)) (VStr "abc")))
           Firestore.no_documents "alice").
  - reflexivity.
  - discriminate.
  - reflexivity.
  - exists 50. split; [reflexivity|lia].
  - reflexivity.
  - intros [H|H]; [discriminate H|exact H].
Defined.

(** *** The text of the audit record *)

Lemma prefix_append (n post : string) : String.prefix n (n ++ post) = true.
Proof.
  induction n as [|c n IH]; simpl.
  - destruct post; reflexivity.
  - destruct (Ascii.ascii_dec c c) as [_|Hc]; [exact IH|congruence].
Qed.

Lemma includes_here (n post : string) : includes n (n ++ post) = true.
Proof.
  pose proof (prefix_append n post) as H.
  destruct (n ++ post) as [|c r].
  - change (includes n "") with (String.prefix n "" || false). rewrite H. reflexivity.
  - change (includes n (String c r)) with (String.prefix n (String c r) || includes n r).
    rewrite H. reflexivity.
Qed.

Lemma includes_later (n pre hay : string) :
  includes n hay = true -> includes n (pre ++ hay) = true.
Proof.
  intros H. induction pre as [|c pre IH]; [exact H|].
  change (includes n (String c pre ++ hay))
    with (String.prefix n (String c (pre ++ hay)) || includes n (pre ++ hay)).
  rewrite IH. apply orb_true_r.
Qed.

(** Up to 1000, Number::toString writes an integer in plain decimal. *)
Lemma Number_toString_small z :
  0 <= z <= 1000 -> Number_toString (NInt z) = decimal z.
Proof.
  intros Hz.
  assert (Hall : forallb (fun i => String.eqb (Number_toString (NInt (Z.of_nat i)))
                                              (decimal (Z.of_nat i)))
                         (seq 0 1001) = true) by (vm_compute; reflexivity).
  rewrite forallb_forall in Hall.
  specialize (Hall (Z.to_nat z)). rewrite Z2Nat.id in Hall by lia.
  apply String.eqb_eq, Hall, in_seq. lia.
Qed.

Lemma game_text_level p l :
  1 <= p <= 1000 -> 1 <= l <= 500 ->
  game_text (VNum (NInt p)) (VNum (NInt l)) =
    "Game: +" ++ decimal p ++ " pts (level " ++ decimal l ++ ")".
Proof.
  intros Hp Hl. unfold game_text, or_else. cbn [ToBoolean ToString].
  replace (l =? 0) with false by (symmetry; apply Z.eqb_neq; lia).
  cbn [negb ToString]. rewrite !Number_toString_small by lia. reflexivity.
Qed.

Lemma game_text_no_level p v :
  ToBoolean v = false ->
  game_text (VNum (NInt p)) v =
    "Game: +" ++ Number_toString (NInt p) ++ " pts (level ?)".
Proof. intros Hv. unfold game_text, or_else. rewrite Hv. reflexivity. Qed.

(** A level that is absent or an integer from 0 to 500 passes the level
    check and raises nothing. *)
Lemma plain_level_passes v :
  v = VUndefined \/ (exists l, v = VNum (NInt l) /\ 0 <= l <= 500) ->
  level_raises v = false /\ level_refused v = false.
Proof.
  intros [->|(l & -> & Hl)]; (split; [apply primitive_level; reflexivity|]).
  - reflexivity.
  - apply level_refused_false. right. exact Hl.
Qed.

(** C2 as stated fails in three ways, each with alice's token, her
    userId and 50 points.  At level 0, a non-negative integer at most
    500, the total grows by the points and one audit record is written,
    but its text reads "level ?" and does not contain the level.  On a
    stored total that is Infinity or NaN (Numbers of the store, added to
    by IEEE 754), the answer is 200 ok:true added:50 and the stored
    total is what it was.  And with a totalScore the store refuses (an
    array inside an array), the answer is 500 "server_error": no total
    grows and no audit record is written. *)
Lemma C2_awards_the_claim_misjudges :
  let call l ts s :=
    run (awardGamePoints Scenario.world
           (Scenario.from_alice
              {| userId := VStr "alice"; points := VNum (NInt 50);
                 level := l; totalScore := ts |})) s in
  (let r := call (VNum (NInt 0)) VUndefined Firestore.no_documents in
   pointTotal (db r.2) "alice" = 50 /\
   exists a, audits (db r.2) "alice" = [a] /\
             a !! "text" = Some (FPrim (VStr "Game: +50 pts (level ?)")) /\
             includes ("level " ++ decimal 0) "Game: +50 pts (level ?)" = false) /\
  (let s := Scenario.with_total (NInf false) in
   let r := call (VNum (NInt 3)) VUndefined s in
   delivered (log r.2) =
     Some (200, Awarded (VNum (NInt 50)) (FPrim (VNum (NInf false)))) /\
   field (db r.2) "alice" "points" = field s "alice" "points") /\
  (let s := Scenario.with_total NNaN in
   let r := call (VNum (NInt 3)) VUndefined s in
   delivered (log r.2) =
     Some (200, Awarded (VNum (NInt 50)) (FPrim (VNum (NInt 0)))) /\
   field (db r.2) "alice" "points" = field s "alice" "points") /\
  (let r := call (VNum (NInt 3)) (VArr [VArr [VNum (NInt 1)]]) Firestore.no_documents in
   replies (log r.2) = [(500, Failure "server_error")] /\
   db r.2 = Firestore.no_documents).
Proof.
  cbv zeta. repeat split; try reflexivity.
  eexists. split; [reflexivity|]. split; reflexivity.
Qed.

(** C2, amended: a call of awardGamePoints with a verified subject equal
    to userId, integer points in [1,1000], a level that is absent or an
    integer in [0,500] and a totalScore the store takes (any primitive,
    or none), on a stored total that is absent or a safe integer and
    stays one, returns normally, adds exactly the points to the stored
    total (so a user without a record ends with the points) and writes
    exactly one audit record, stamped by the server.  Its text contains
    the level when the level is at least 1, and "level ?" when the level
    is absent. *)
Theorem C2_game_points_awarded E req s uid p :
  authenticate E req = Some uid ->
  uid <> "" ->
  userId (body_or_empty req) = VStr uid ->
  points (body_or_empty req) = VNum (NInt p) ->
  1 <= p <= 1000 ->
  level (body_or_empty req) = VUndefined \/
    (exists l, level (body_or_empty req) = VNum (NInt l) /\ 0 <= l <= 500) ->
  record_storable E (totalScore (body_or_empty req)) = true ->
  safe_total (field s uid "points") p ->
  let r := run (awardGamePoints E req) s in
  let s' := db r.2 in
  r.1 = inl tt /\
  pointTotal s' uid = pointTotal s uid + p /\
  field s' uid "points" = Some (FPrim (VNum (NInt (pointTotal s uid + p)))) /\
  (users s !! uid = None -> pointTotal s' uid = p) /\
  exists a text,
    audits s' uid = (audits s uid ++ [a])%list /\
    a !! "time" = Some (FTimestamp (serverTime E)) /\
    a !! "text" = Some (FPrim (VStr text)) /\
    (forall l, level (body_or_empty req) = VNum (NInt l) -> 1 <= l ->
               includes ("level " ++ decimal l) text = true) /\
    (level (body_or_empty req) = VUndefined -> includes "level ?" text = true).
Proof.
  intros Ha Hne Hu Hp Hr Hlev Hst Hsafe r s'. subst s' r.
  pose proof (safe_total_integral _ _ Hsafe) as Hi.
  assert (Hm : mismatch (userId (body_or_empty req)) uid = false)
    by (rewrite Hu; apply mismatch_same, Hne).
  assert (Hv : points_refused (points (body_or_empty req)) = None)
    by (apply points_refused_valid; exists p; auto).
  destruct (plain_level_passes _ Hlev) as [Hx Hl].
  destruct (awardGamePoints_awards E req s uid Ha Hm Hv Hx Hl Hst) as (s' & Hs' & ->).
  rewrite commit_game_writes in Hs'. injection Hs' as <-. cbn [fst snd db log].
  rewrite Hp.
  assert (Hf : field (awarded (serverTime E) uid [("points", Increment (VNum (NInt p)))]
                        [("text", Plain (FPrim (VStr (game_text (VNum (NInt p))
                                                       (level (body_or_empty req))))));
                         ("time", ServerTimestamp);
                         ("totalScore",
                          Plain (FPrim (or_else (totalScore (body_or_empty req)) VNull)))]
                        s) uid "points"
                = Some (FPrim (VNum (NInt (pointTotal s uid + p))))).
  { apply points_after_award; [|exact Hi]. intros []. }
  assert (Ht : pointTotal (awarded (serverTime E) uid [("points", Increment (VNum (NInt p)))]
                        [("text", Plain (FPrim (VStr (game_text (VNum (NInt p))
                                                       (level (body_or_empty req))))));
                         ("time", ServerTimestamp);
                         ("totalScore",
                          Plain (FPrim (or_else (totalScore (body_or_empty req)) VNull)))]
                        s) uid = pointTotal s uid + p).
  { unfold pointTotal at 1. rewrite Hf. reflexivity. }
  split; [reflexivity|]. split; [exact Ht|]. split; [exact Hf|]. split.
  - intros Hnone. rewrite Ht. unfold pointTotal, field. rewrite Hnone. reflexivity.
  - eexists _, _. split; [apply audits_awarded_same|].
    split; [reflexivity|]. split; [reflexivity|]. split.
    + intros l Hll Hl1. destruct Hlev as [Hlev|(l' & Hlev & Hb)]; [congruence|].
      assert (l' = l) by congruence. subst l'. rewrite Hll.
      rewrite game_text_level by lia.
      apply (includes_later _ "Game: +"), (includes_later _ (decimal p)).
      apply (includes_later _ " pts (").
      exact (includes_here ("level " ++ decimal l) ")").
    + intros Hund. rewrite Hund, game_text_no_level by reflexivity.
      apply (includes_later _ "Game: +"), (includes_later _ (Number_toString (NInt p))).
      apply (includes_later _ " pts ("). exact (includes_here "level ?" ")").
Qed.

(** The scenario: a user with no prior record calls awardGamePoints with
    points 50 and level 3, and ends with total 50 and one audit record
    containing "level 3". *)
Lemma C2_witness :
  let r := run (awardGamePoints Scenario.world
                  (Scenario.from_alice (Scenario.game (VNum (NInt 50)) (VNum (NInt 3)))))
               Firestore.no_documents in
  pointTotal (db r.2) "alice" = 50 /\
  exists a text,
    audits (db r.2) "alice" = [a] /\
    a !! "text" = Some (FPrim (VStr text)) /\
    includes "level 3" text = true.
Proof.
  destruct (C2_game_points_awarded Scenario.world
              (Scenario.from_alice (Scenario.game (VNum (NInt 50)) (VNum (NInt 3))))
              Firestore.no_documents "alice" 50)
    as (_ & Ht & _ & _ & a & text & Hau & _ & Htx & Hinc & _).
  - reflexivity.
  - discriminate.
  - reflexivity.
  - reflexivity.
  - lia.
  - right. exists 3. split; [reflexivity|lia].
  - reflexivity.
  - exact I.
  - split; [exact Ht|]. exists a, text. split; [exact Hau|]. split; [exact Htx|].
    apply (Hinc 3); [reflexivity|lia].
Defined.

(** C6: whatever the request, a batch committed by either handler writes
    nothing, or exactly one increment of the points of a user together
    with exactly one new audit record of that user; a successful award
    commits exactly one batch, of the second kind, whose commit is the
    whole change of the store and whose audit record carries the time of
    the server; and a call that does not award leaves the store as it
    was.  So no run commits an increment without its audit record, or an
    audit record without its increment. *)
Theorem C6_increment_and_audit_in_one_transaction E c req s :
  let r := run (handler c E req) s in
  (forall ws, In ws (commits (log r.2)) ->
     (flat_map increments_of ws = [] /\ flat_map audits_created_by ws = []) \/
     (exists uid n,
        flat_map increments_of ws = [(UserRef uid, "points", VNum (NInt n))] /\
        flat_map audits_created_by ws = [uid])) /\
  (forall added total,
     delivered (log r.2) = Some (200, Awarded added total) ->
     exists uid ws a,
       commits (log r.2) = [ws] /\
       commit (serverTime E) ws s = Some (db r.2) /\
       flat_map increments_of ws = [(UserRef uid, "points", added)] /\
       flat_map audits_created_by ws = [uid] /\
       audits (db r.2) uid = (audits s uid ++ [a])%list /\
       a !! "time" = Some (FTimestamp (serverTime E))) /\
  ((forall added total, delivered (log r.2) <> Some (200, Awarded added total)) ->
   db r.2 = s).
Proof.
  intros r. subst r. generalize (run_outcome E c req s).
  generalize (run (handler c E req) s). intros r Ho.
  destruct Ho as [c evs Ha Hin|c uid err Ha Hin|uid Ha Hu Hk|uid Ha Hu Hk s'
                  |uid Ha Hx|uid Ha Hst|uid p Ha b Hu Hp Hr s']; cbn [snd db log].
  - destruct Hin as [<-|[<-|[]]]; (split; [intros ws []|]);
      (split; [intros ? ? [=]|reflexivity]).
  - split; [intros ws []|]. split; [intros ? ? [=]|reflexivity].
  - split; [|split; [intros ? ? [=]|reflexivity]].
    intros ws [<-|[]]. left. split; reflexivity.
  - split; [|split].
    + intros ws [<-|[]]. right. exists uid, 100. split; reflexivity.
    + intros added total [= <- <-].
      exists uid, (ad_writes E uid). eexists. split; [reflexivity|].
      split; [apply commit_ad_writes|]. split; [reflexivity|]. split; [reflexivity|].
      split; [apply audits_awarded_same|reflexivity].
    + intros Hno. exfalso. eapply Hno. reflexivity.
  - split; [intros ws []|]. split; [intros ? ? [=]|reflexivity].
  - split; [intros ws []|]. split; [intros ? ? [=]|reflexivity].
  - split; [|split].
    + intros ws [<-|[]]. right. exists uid, p. unfold game_writes. rewrite Hp.
      destruct (bool_decide _); split; reflexivity.
    + intros added total [= <- <-].
      exists uid, (game_writes b uid (bool_decide (is_Some (users s !! uid)))).
      eexists. split; [reflexivity|].
      split; [subst s'; rewrite <- Hp; apply commit_game_writes|].
      split; [unfold game_writes; destruct (bool_decide _); reflexivity|].
      split; [unfold game_writes; destruct (bool_decide _); reflexivity|].
      split; [apply audits_awarded_same|reflexivity].
    + intros Hno. exfalso. eapply Hno. reflexivity.
Qed.

(** *** The store after a call *)

(** A call leaves the store as it was or commits one award. *)
Lemma next_cases E c req s :
  next E c req s = s \/
  exists uid n rest adata,
    next E c req s =
      awarded (serverTime E) uid (("points", Increment (VNum (NInt n))) :: rest) adata s /\
    match c with
    | AdReward => n = 100 /\ rest = [("lastAdShown", Plain (FPrim (VStr (dayKey E))))]
    | GamePoints =>
        points (body_or_empty req) = VNum (NInt n) /\ 1 <= n <= 1000 /\ rest = []
    end.
Proof.
  unfold next. generalize (run_outcome E c req s).
  generalize (run (handler c E req) s). intros r Ho.
  destruct Ho as [c evs Ha Hin|c uid err Ha Hin|uid Ha Hu Hk|uid Ha Hu Hk s'
                  |uid Ha Hx|uid Ha Hst|uid p Ha b Hu Hp Hr s']; cbn [snd db]; auto.
  - right. exists uid, 100. eexists _, _. split; [reflexivity|]. split; reflexivity.
  - right. exists uid, p. eexists _, _. split; [reflexivity|]. auto.
Qed.

Lemma total_ok_integral f : total_ok f -> integral f = true /\ 0 <= total_of f.
Proof.
  intros [->|(z & Hz & ->)]; cbn; split; auto; lia.
Qed.

Lemma reachable_total_ok s : reachable s -> forall uid, total_ok (field s uid "points").
Proof.
  induction 1 as [|s E c req Hs IH]; intros u.
  - left. reflexivity.
  - destruct (next_cases E c req s) as [->|(uid & n & rest & adata & -> & Hc)]; [apply IH|].
    destruct (String.eqb_spec u uid) as [->|Hne].
    + destruct (total_ok_integral _ (IH uid)) as [Hi H0].
      right. exists (pointTotal s uid + n). split.
      * unfold pointTotal. destruct c; lia.
      * apply points_after_award; [|exact Hi].
        destruct c; [destruct Hc as [_ ->]|destruct Hc as (_ & _ & ->)]; cbn.
        -- intros [H|[]]. discriminate.
        -- intros [].
    + rewrite field_awarded_other by exact Hne. apply IH.
Qed.

(** C8: in every store the system reaches from the empty one, the
    [points] field of a user is absent (a total of 0) or a non-negative
    integer; and a further call to either endpoint leaves each total as
    it was or adds a positive integer to it: 100 for applyAdReward, the
    points of the request, between 1 and 1000, for awardGamePoints.  So
    the total never decreases and is never negative. *)
Theorem C8_total_never_decreases s :
  reachable s ->
  (forall uid,
     0 <= pointTotal s uid /\
     (field s uid "points" = None \/
      field s uid "points" = Some (FPrim (VNum (NInt (pointTotal s uid)))))) /\
  (forall E c req uid,
     let s' := next E c req s in
     pointTotal s' uid = pointTotal s uid \/
     match c with
     | AdReward => pointTotal s' uid = pointTotal s uid + 100
     | GamePoints =>
         exists p, points (body_or_empty req) = VNum (NInt p) /\ 1 <= p <= 1000 /\
                   pointTotal s' uid = pointTotal s uid + p
     end).
Proof.
  intros Hs. pose proof (reachable_total_ok s Hs) as Hok. split.
  - intros uid. destruct (Hok uid) as [Hn|(z & Hz & Hf)].
    + unfold pointTotal. rewrite Hn. split; [cbn; lia|left; reflexivity].
    + unfold pointTotal. rewrite Hf. cbn. split; [exact Hz|right; reflexivity].
  - intros E c req u s'. subst s'.
    destruct (next_cases E c req s) as [->|(uid & n & rest & adata & -> & Hc)];
      [left; reflexivity|].
    destruct (String.eqb_spec u uid) as [->|Hne].
    + right. destruct (total_ok_integral _ (Hok uid)) as [Hi _].
      assert (Hp : pointTotal (awarded (serverTime E) uid
                                 (("points", Increment (VNum (NInt n))) :: rest) adata s) uid
                   = pointTotal s uid + n).
      { unfold pointTotal at 1. rewrite points_after_award; [reflexivity| |exact Hi].
        destruct c; [destruct Hc as [_ ->]|destruct Hc as (_ & _ & ->)]; cbn.
        - intros [H|[]]. discriminate.
        - intros []. }
      destruct c.
      * destruct Hc as [-> _]. exact Hp.
      * destruct Hc as (Hv & Hr & _). exists n. auto.
    + left. unfold pointTotal. rewrite field_awarded_other by exact Hne. reflexivity.
Qed.

(** After alice's first ad reward every total is a non-negative integer,
    and a further call adds nothing, 100, or the points of the request. *)
Lemma C8_witness :
  let s := next Scenario.world AdReward (Scenario.from_alice Scenario.just_userId)
                Firestore.no_documents in
  (forall uid,
     0 <= pointTotal s uid /\
     (field s uid "points" = None \/
      field s uid "points" = Some (FPrim (VNum (NInt (pointTotal s uid)))))) /\
  (forall E c req uid,
     let s' := next E c req s in
     pointTotal s' uid = pointTotal s uid \/
     match c with
     | AdReward => pointTotal s' uid = pointTotal s uid + 100
     | GamePoints =>
         exists p, points (body_or_empty req) = VNum (NInt p) /\ 1 <= p <= 1000 /\
                   pointTotal s' uid = pointTotal s uid + p
     end).
Proof.
  exact (C8_total_never_decreases _
           (reach_call _ Scenario.world AdReward
              (Scenario.from_alice Scenario.just_userId) reach_empty)).
Defined.

(** C9: whatever the request, a call of awardGamePoints leaves every
    field other than [points] of every balance record as it was, and a
    call of applyAdReward every field other than [points] and
    [lastAdShown]; and after a successful award the record of the caller
    exists: the write merges into the record, or creates it. *)
Theorem C9_other_fields_unchanged E req s uid :
  (forall name,
     name <> "points" ->
     field (next E GamePoints req s) uid name = field s uid name /\
     (name <> "lastAdShown" ->
      field (next E AdReward req s) uid name = field s uid name)) /\
  (forall c added total,
     authenticate E req = Some uid ->
     delivered (log (run (handler c E req) s).2) = Some (200, Awarded added total) ->
     is_Some (users (next E c req s) !! uid)).
Proof.
  split.
  - intros name Hp. split.
    + destruct (next_cases E GamePoints req s) as [->|(u & n & rest & adata & -> & Hc)];
        [reflexivity|].
      destruct Hc as (_ & _ & ->).
      destruct (String.eqb_spec uid u) as [->|Hne].
      * rewrite field_awarded_same, merge_fields_frame, default_lookup; [reflexivity|].
        cbn. intros [H|[]]. congruence.
      * apply field_awarded_other, Hne.
    + intros Hl.
      destruct (next_cases E AdReward req s) as [->|(u & n & rest & adata & -> & Hc)];
        [reflexivity|].
      destruct Hc as (_ & ->).
      destruct (String.eqb_spec uid u) as [->|Hne].
      * rewrite field_awarded_same, merge_fields_frame, default_lookup; [reflexivity|].
        cbn. intros [H|[H|[]]]; congruence.
      * apply field_awarded_other, Hne.
  - intros c added total Ha. unfold next. generalize (run_outcome E c req s).
    generalize (run (handler c E req) s). intros r Ho.
    destruct Ho as [c evs Ha' Hin|c u err Ha' Hin|u Ha' Hu Hk|u Ha' Hu Hk s'
                    |u Ha' Hx|u Ha' Hst|u p Ha' b Hu Hp Hr s']; cbn [snd db log].
    + destruct Hin as [<-|[<-|[]]]; intros [=].
    + intros [=].
    + intros [=].
    + intros _. assert (u = uid) by congruence. subst u s'.
      unfold awarded. cbn [users]. rewrite lookup_insert_eq. eauto.
    + intros [=].
    + intros [=].
    + intros _. assert (u = uid) by congruence. subst u s'.
      unfold awarded. cbn [users]. rewrite lookup_insert_eq. eauto.
Qed.

(** Alice's display name survives a game award and an ad reward. *)
Lemma C9_witness :
  let req := Scenario.from_alice (Scenario.game (VNum (NInt 50)) (VNum (NInt 3))) in
  field (next Scenario.world GamePoints req Scenario.with_profile) "alice" "displayName"
    = Some (FPrim (VStr "Alice")) /\
  field (next Scenario.world AdReward req Scenario.with_profile) "alice" "displayName"
    = Some (FPrim (VStr "Alice")).
Proof.
  destruct (C9_other_fields_unchanged Scenario.world
              (Scenario.from_alice (Scenario.game (VNum (NInt 50)) (VNum (NInt 3))))
              Scenario.with_profile "alice") as [Hframe _].
  destruct (Hframe "displayName") as [Hgame Had]; [discriminate|].
  split; [exact Hgame|]. apply Had. discriminate.
Defined.

(* ===================================================================== *)
(** ** Further properties of the handlers *)
(* ===================================================================== *)

Import Sessions.

(** *** The bearer token *)

Lemma substring_all (s : string) : substring 0 (String.length s) s = s.
Proof. induction s as [|c s IH]; [reflexivity|]. simpl. rewrite IH. reflexivity. Qed.

Lemma split_1_bearer (tok : string) :
  split_1 "Bearer " ("Bearer " ++ tok) = Some (carried_token tok).
Proof.
  unfold split_1, carried_token.
  assert (Hi : String.index 0 "Bearer " ("Bearer " ++ tok) = Some 0%nat).
  { simpl. destruct tok; reflexivity. }
  rewrite Hi.
  change (substring (0 + String.length "Bearer ")
            (String.length ("Bearer " ++ tok) - (0 + String.length "Bearer "))
            ("Bearer " ++ tok))
    with (substring 0 (String.length tok - 0) tok).
  rewrite Nat.sub_0_r, substring_all.
  destruct (String.index 0 "Bearer " tok); reflexivity.
Qed.

Lemma prefix_bearer (tok : string) : String.prefix "Bearer " ("Bearer " ++ tok) = true.
Proof. apply prefix_append. Qed.

(** X1: a request whose Authorization header is absent, or does not
    start with "Bearer ", is answered 401 "Missing or invalid
    Authorization header" by both handlers, whatever the identity service
    would say and whatever the body holds; the store is untouched and no
    transaction is opened. *)
Theorem X1_missing_bearer_header_is_401 E c req s :
  String.prefix "Bearer " (default "" (authorization req)) = false ->
  run (handler c E req) s =
    (inl tt, {| db := s; pending := [];
                log := [Json 401 (Failure "Missing or invalid Authorization header")] |}).
Proof.
  intros H.
  destruct c; unfold handler, run, applyAdReward, awardGamePoints, try_catch, bind,
    verifyIdTokenFromReq; rewrite H; reflexivity.
Qed.

(** A header with another scheme, on a store alice has already used. *)
Lemma X1_witness :
  run (handler GamePoints Scenario.world
         {| authorization := Some "Basic token-of-alice";
            req_body := Some (Scenario.game (VNum (NInt 50)) (VNum (NInt 3))) |})
      Scenario.claimed_today =
    (inl tt, {| db := Scenario.claimed_today; pending := [];
                log := [Json 401 (Failure "Missing or invalid Authorization header")] |}).
Proof.
  apply (X1_missing_bearer_header_is_401 Scenario.world GamePoints
           {| authorization := Some "Basic token-of-alice";
              req_body := Some (Scenario.game (VNum (NInt 50)) (VNum (NInt 3))) |}
           Scenario.claimed_today).
  reflexivity.
Defined.

(** X2: for a header "Bearer " followed by a text, the helper asks the
    identity service about that text, cut at a second "Bearer " when it
    has one.  It yields the uid without sending anything when the token
    verifies; otherwise it logs the error, answers 401 "Invalid ID
    token" and yields null. *)
Theorem X2_bearer_token_decides E req s tok :
  authorization req = Some ("Bearer " ++ tok) ->
  verifyIdTokenFromReq E req (init s) =
    match verifyIdToken E (carried_token tok) with
    | Some uid => (inl (Some uid), init s)
    | None =>
        (inl None,
         {| db := s; pending := [];
            log := [ConsoleError "verifyIdToken error:";
                    Json 401 (Failure "Invalid ID token")] |})
    end.
Proof.
  intros H. unfold verifyIdTokenFromReq. rewrite H.
  change (default "" (Some ("Bearer " ++ tok))) with ("Bearer " ++ tok).
  rewrite prefix_bearer, split_1_bearer. cbn [negb].
  unfold try_catch, bind, admin_verifyIdToken.
  destruct (verifyIdToken E (carried_token tok)); reflexivity.
Qed.

(** A token with a second "Bearer " inside is cut there: the service is
    asked about "abc " and refuses it. *)
Lemma X2_witness :
  verifyIdTokenFromReq Scenario.world
    {| authorization := Some "Bearer abc Bearer token-of-alice"; req_body := None |}
    (init Firestore.no_documents) =
  (inl None,
   {| db := Firestore.no_documents; pending := [];
      log := [ConsoleError "verifyIdToken error:";
              Json 401 (Failure "Invalid ID token")] |}).
Proof.
  apply (X2_bearer_token_decides Scenario.world
           {| authorization := Some "Bearer abc Bearer token-of-alice"; req_body := None |}
           Firestore.no_documents "abc Bearer token-of-alice").
  reflexivity.
Defined.

(** *** Responses *)


(** X4: applyAdReward ends with an exception exactly when the caller is
    verified, passes the userId check and has already claimed today; in
    every other case it returns normally and answers exactly once. *)
Theorem X4_applyAdReward_throws_iff_already_claimed E req s :
  let r := run (applyAdReward E req) s in
  (r.1 = inr ERR_HTTP_HEADERS_SENT <->
   exists uid, authenticate E req = Some uid /\
               userId (body_or_empty req) = VStr uid /\ uid <> "" /\
               field s uid "lastAdShown" = Some (FPrim (VStr (dayKey E)))) /\
  (r.1 = inl tt \/ r.1 = inr ERR_HTTP_HEADERS_SENT) /\
  (r.1 = inl tt -> exists status body, replies (log r.2) = [(status, body)]).
Proof.
  intros r. subst r.
  destruct (authenticate E req) as [uid|] eqn:Ha.
  - destruct (mismatch (userId (body_or_empty req)) uid) eqn:Hm.
    + rewrite (applyAdReward_mismatch E req s uid Ha Hm). cbn [fst snd log].
      split; [split|split].
      * discriminate.
      * intros (u & [= <-] & Hu & Hne & _).
        rewrite Hu, mismatch_same in Hm by exact Hne. discriminate.
      * left. reflexivity.
      * intros _. eexists _, _. reflexivity.
    + destruct (mismatch_false _ _ Hm) as [Hu Hne].
      destruct (field_is (field s uid "lastAdShown") (dayKey E)) eqn:Hc.
      * rewrite (applyAdReward_claimed E req s uid Ha Hm Hc). cbn [fst snd log].
        split; [split|split].
        -- intros _. exists uid. apply field_is_spec in Hc. auto.
        -- reflexivity.
        -- right. reflexivity.
        -- discriminate.
      * destruct (applyAdReward_awards E req s uid Ha Hm Hc) as (s' & _ & ->).
        cbn [fst snd log]. split; [split|split].
        -- discriminate.
        -- intros (u & [= <-] & _ & _ & Hk). apply field_is_spec in Hk. congruence.
        -- left. reflexivity.
        -- intros _. eexists _, _. reflexivity.
  - destruct (applyAdReward_refuses E req s Ha) as (evs & Hin & ->). cbn [fst snd log].
    split; [split|split].
    + discriminate.
    + intros (u & [=] & _).
    + left. reflexivity.
    + intros _. destruct Hin as [<-|[<-|[]]]; eexists _, _; reflexivity.
Qed.

(** X5: the ok:true response of awardGamePoints reports the points of
    the request as added and the stored total after the award as points,
    for a verified caller who names itself, valid points, a level the
    handler accepts and a totalScore the store takes, on a stored total
    that is absent or a safe integer and stays one. *)
Theorem X5_game_response_reports_new_total E req s uid p :
  authenticate E req = Some uid ->
  uid <> "" ->
  userId (body_or_empty req) = VStr uid ->
  points (body_or_empty req) = VNum (NInt p) ->
  1 <= p <= 1000 ->
  level_refused (level (body_or_empty req)) = false ->
  record_storable E (totalScore (body_or_empty req)) = true ->
  safe_total (field s uid "points") p ->
  let r := run (awardGamePoints E req) s in
  replies (log r.2) =
    [(200, Awarded (VNum (NInt p)) (FPrim (VNum (NInt (pointTotal s uid + p)))))] /\
  field (db r.2) uid "points" = Some (FPrim (VNum (NInt (pointTotal s uid + p)))) /\
  - MAX_SAFE_INTEGER <= pointTotal s uid + p <= MAX_SAFE_INTEGER.
Proof.
  intros Ha Hne Hu Hp Hr Hl Hst Hsafe r. subst r.
  pose proof (level_accepted_no_raise _ Hl) as Hx.
  pose proof (safe_total_integral _ _ Hsafe) as Hi.
  assert (Hm : mismatch (userId (body_or_empty req)) uid = false)
    by (rewrite Hu; apply mismatch_same, Hne).
  assert (Hv : points_refused (points (body_or_empty req)) = None)
    by (apply points_refused_valid; exists p; auto).
  destruct (awardGamePoints_awards E req s uid Ha Hm Hv Hx Hl Hst) as (s' & Hs' & ->).
  rewrite commit_game_writes in Hs'. injection Hs' as <-. cbn [snd db log].
  rewrite replies_award_log, Hp.
  pose proof (points_after_award (serverTime E) uid p []
                [("text", Plain (FPrim (VStr (game_text (VNum (NInt p))
                                               (level (body_or_empty req))))));
                 ("time", ServerTimestamp);
                 ("totalScore",
                  Plain (FPrim (or_else (totalScore (body_or_empty req)) VNull)))]
                s (fun H => H) Hi) as Hf.
  split; [|split].
  - rewrite (newPoints_after_award _ _ _ Hf). reflexivity.
  - exact Hf.
  - split.
    + pose proof (safe_total_floor _ _ Hsafe). unfold pointTotal. lia.
    + apply safe_total_bounds; assumption.
Qed.

(** Alice, with 10 points, is awarded 50: the response reports 60. *)
Lemma X5_witness :
  replies (log (run (awardGamePoints Scenario.world
                       (Scenario.from_alice
                          (Scenario.game (VNum (NInt 50)) (VNum (NInt 3)))))
                    Scenario.with_profile).2) =
    [(200, Awarded (VNum (NInt 50)) (FPrim (VNum (NInt 60))))].
Proof.
  apply (X5_game_response_reports_new_total Scenario.world
           (Scenario.from_alice (Scenario.game (VNum (NInt 50)) (VNum (NInt 3))))
           Scenario.with_profile "alice" 50).
  - reflexivity.
  - discriminate.
  - reflexivity.
  - reflexivity.
  - lia.
  - reflexivity.
  - reflexivity.
  - vm_compute. split; discriminate.
Defined.

(** *** The audit log and the other users *)

(** X6: the audit log is append-only.  Whatever the call, the audit log
    of every user afterwards is the log before, or the log before with
    one record added at the end. *)
Theorem X6_audit_log_append_only E c req s u :
  audits (next E c req s) u = audits s u \/
  exists a, audits (next E c req s) u = (audits s u ++ [a])%list.
Proof.
  destruct (next_cases E c req s) as [->|(uid & n & rest & adata & -> & _)];
    [left; reflexivity|].
  destruct (String.eqb_spec u uid) as [->|Hne].
  - right. eexists. apply audits_awarded_same.
  - left. apply audits_awarded_other, Hne.
Qed.

(** X7: a call changes nothing that belongs to another user.  When the
    token verifies for uid, the balance record and the audit log of
    every other user are as before; when it does not verify, the whole
    store is as before. *)
Theorem X7_only_the_caller_is_touched E c req s :
  match authenticate E req with
  | Some uid =>
      forall u, u <> uid ->
        users (next E c req s) !! u = users s !! u /\
        audits (next E c req s) u = audits s u
  | None => next E c req s = s
  end.
Proof.
  unfold next. generalize (run_outcome E c req s).
  generalize (run (handler c E req) s). intros r Ho.
  destruct Ho as [c evs Ha Hin|c uid err Ha Hin|uid Ha Hu Hk|uid Ha Hu Hk s'
                  |uid Ha Hx|uid Ha Hst|uid p Ha b Hu Hp Hr s']; rewrite Ha; cbn [snd db]; auto.
  - intros u Hne. subst s'. split; [|apply audits_awarded_other, Hne].
    unfold awarded. cbn [users]. apply lookup_insert_ne. congruence.
  - intros u Hne. subst s'. split; [|apply audits_awarded_other, Hne].
    unfold awarded. cbn [users]. apply lookup_insert_ne. congruence.
Qed.

(** *** The ledger in the stores the system reaches *)

Lemma total_after_award t uid n rest adata s :
  ~ In "points" (map fst rest) ->
  integral (field s uid "points") = true ->
  pointTotal (awarded t uid (("points", Increment (VNum (NInt n))) :: rest) adata s) uid
    = pointTotal s uid + n.
Proof.
  intros Hn Hi. unfold pointTotal at 1.
  rewrite points_after_award by assumption. reflexivity.
Qed.

Lemma award_rest_has_no_points E c req n rest :
  match c with
  | AdReward => n = 100 /\ rest = [("lastAdShown", Plain (FPrim (VStr (dayKey E))))]
  | GamePoints =>
      points (body_or_empty req) = VNum (NInt n) /\ 1 <= n <= 1000 /\ rest = []
  end ->
  ~ In "points" (map fst rest) /\ 1 <= n <= 1000.
Proof.
  destruct c.
  - intros [-> ->]. split; [|lia]. cbn. intros [H|[]]. discriminate.
  - intros (_ & Hr & ->). split; [intros []|exact Hr].
Qed.

(** X8: in every store the system reaches from the empty one, the total
    of a user is bounded by the audit log: each audit record stands for
    an award of 1 to 1000 points, so the total lies between the number of
    records and 1000 times that number; and a user has a balance record
    exactly when the audit log is not empty. *)
Theorem X8_total_bounded_by_audit_log s :
  reachable s ->
  forall uid,
    Z.of_nat (length (audits s uid)) <= pointTotal s uid
      <= 1000 * Z.of_nat (length (audits s uid)) /\
    (is_Some (users s !! uid) <-> audits s uid <> []).
Proof.
  induction 1 as [|s E c req Hs IH]; intros u.
  - assert (Ha : audits Firestore.no_documents u = [])
      by (unfold audits, Firestore.no_documents; cbn; rewrite lookup_empty; reflexivity).
    assert (Hu : users Firestore.no_documents !! u = None) by apply lookup_empty.
    unfold pointTotal, field. rewrite Ha, Hu. cbn. split; [lia|]. split.
    + intros [d Hd]. discriminate.
    + intros H. exfalso. apply H. reflexivity.
  - destruct (next_cases E c req s) as [->|(uid & n & rest & adata & -> & Hc)];
      [apply IH|].
    apply award_rest_has_no_points in Hc as [Hnp Hn].
    destruct (String.eqb_spec u uid) as [->|Hne].
    + destruct (total_ok_integral _ (reachable_total_ok s Hs uid)) as [Hi _].
      rewrite total_after_award, audits_awarded_same, length_app by assumption.
      destruct (IH uid) as [Hb _]. cbn [length]. split; [lia|]. split.
      * intros _. destruct (audits s uid); discriminate.
      * intros _. unfold awarded. cbn [users]. rewrite lookup_insert_eq. eauto.
    + unfold pointTotal. rewrite field_awarded_other, audits_awarded_other by exact Hne.
      unfold awarded. cbn [users]. rewrite lookup_insert_ne by congruence.
      apply IH.
Qed.

(** After alice's first ad reward: one record, 100 points. *)
Lemma X8_witness :
  let s := next Scenario.world AdReward (Scenario.from_alice Scenario.just_userId)
                Firestore.no_documents in
  Z.of_nat (length (audits s "alice")) <= pointTotal s "alice"
    <= 1000 * Z.of_nat (length (audits s "alice")) /\
  (is_Some (users s !! "alice") <-> audits s "alice" <> []).
Proof.
  exact (X8_total_bounded_by_audit_log _
           (reach_call _ Scenario.world AdReward
              (Scenario.from_alice Scenario.just_userId) reach_empty) "alice").
Defined.

(** *** The checks of awardGamePoints, in their order *)

(** X9: for a verified caller who names itself, the reason code tells
    what is wrong with the points, whatever the level and the score are:
    "invalid points" when points is not an integer or is at most 0,
    "points_too_large" when it is an integer above 1000.  In both cases
    nothing else happens. *)
Theorem X9_points_reason_codes E req s uid :
  authenticate E req = Some uid ->
  uid <> "" ->
  userId (body_or_empty req) = VStr uid ->
  let b := body_or_empty req in
  let refused err :=
    run (awardGamePoints E req) s =
      (inl tt, {| db := s; pending := []; log := [Json 400 (Failure err)] |}) in
  (Number_isInteger (points b) = false -> refused "invalid points") /\
  (forall p, points b = VNum (NInt p) -> p <= 0 -> refused "invalid points") /\
  (forall p, points b = VNum (NInt p) -> 1000 < p -> refused "points_too_large").
Proof.
  intros Ha Hne Hu b refused. subst refused b.
  assert (Hm : mismatch (userId (body_or_empty req)) uid = false)
    by (rewrite Hu; apply mismatch_same, Hne).
  split; [|split].
  - intros Hi. apply (awardGamePoints_bad_points E req s uid _ Ha Hm).
    unfold points_refused. rewrite Hi. reflexivity.
  - intros p Hp Hle. apply (awardGamePoints_bad_points E req s uid _ Ha Hm).
    unfold points_refused, less_eq, less, isNaN. rewrite Hp.
    cbn [Number_isInteger negb orb ToNumber]. rewrite num_lt_int.
    replace (0 <? p) with false by (symmetry; apply Z.ltb_ge; lia). reflexivity.
  - intros p Hp Hgt. apply (awardGamePoints_bad_points E req s uid _ Ha Hm).
    unfold points_refused, less_eq, greater, less, isNaN, MAX_POINTS_PER_CALL. rewrite Hp.
    cbn [Number_isInteger negb orb ToNumber]. rewrite !num_lt_int.
    replace (0 <? p) with true by (symmetry; apply Z.ltb_lt; lia).
    replace (1000 <? p) with true by (symmetry; apply Z.ltb_lt; lia). reflexivity.
Qed.

(** Alice sends 2.5 points and an invalid level: the answer is about the
    points. *)
Lemma X9_witness :
  run (awardGamePoints Scenario.world
         (Scenario.from_alice (Scenario.game (VNum (NDec 25 1)) (VNum (NInt 501)))))
      Scenario.with_profile =
    (inl tt, {| db := Scenario.with_profile; pending := [];
                log := [Json 400 (Failure "invalid points")] |}).
Proof.
  apply (X9_points_reason_codes Scenario.world
           (Scenario.from_alice (Scenario.game (VNum (NDec 25 1)) (VNum (NInt 501))))
           Scenario.with_profile "alice"); solve [reflexivity | discriminate].
Defined.

(** X10: the audit record of a game award has exactly three fields: the
    text, the time of the server and the total score.  A level that is
    falsy (absent, null, false, 0, NaN or the empty string) is written
    as "?"; a total score that is falsy is written as null, any other is
    stored as given.  The award is that of a level the handler accepts
    and of a totalScore the store takes, as it takes every primitive. *)
Theorem X10_game_audit_record E req s uid p :
  authenticate E req = Some uid ->
  uid <> "" ->
  userId (body_or_empty req) = VStr uid ->
  points (body_or_empty req) = VNum (NInt p) ->
  1 <= p <= 1000 ->
  level_refused (level (body_or_empty req)) = false ->
  record_storable E (totalScore (body_or_empty req)) = true ->
  let b := body_or_empty req in
  let s' := db (run (awardGamePoints E req) s).2 in
  exists text,
    audits s' uid =
      (audits s uid ++
       [ {[ "text" := FPrim (VStr text);
            "time" := FTimestamp (serverTime E);
            "totalScore" := FPrim (if ToBoolean (totalScore b)
                                   then totalScore b else VNull) ]} ])%list /\
    text = "Game: +" ++ decimal p ++ " pts (level " ++
           ToString (or_else (level b) (VStr "?")) ++ ")" /\
    (ToBoolean (level b) = false ->
     text = "Game: +" ++ decimal p ++ " pts (level ?)").
Proof.
  intros Ha Hne Hu Hp Hr Hl Hst b s'. subst s' b.
  pose proof (level_accepted_no_raise _ Hl) as Hx.
  assert (Hm : mismatch (userId (body_or_empty req)) uid = false)
    by (rewrite Hu; apply mismatch_same, Hne).
  assert (Hv : points_refused (points (body_or_empty req)) = None)
    by (apply points_refused_valid; exists p; auto).
  destruct (awardGamePoints_awards E req s uid Ha Hm Hv Hx Hl Hst) as (s' & Hs' & ->).
  rewrite commit_game_writes in Hs'. injection Hs' as <-. cbn [snd db].
  rewrite audits_awarded_same, Hp.
  exists (game_text (VNum (NInt p)) (level (body_or_empty req))). split; [|split].
  - reflexivity.
  - unfold game_text. cbn [ToString]. rewrite Number_toString_small by lia. reflexivity.
  - intros Hf. rewrite game_text_no_level by exact Hf.
    rewrite Number_toString_small by lia. reflexivity.
Qed.

(** Alice sends level null and no score: "level ?" and a null score. *)
Lemma X10_witness :
  audits (db (run (awardGamePoints Scenario.world
                     (Scenario.from_alice (Scenario.game (VNum (NInt 50)) VNull)))
                  Firestore.no_documents).2) "alice" =
    [ {[ "text" := FPrim (VStr "Game: +50 pts (level ?)");
         "time" := FTimestamp 1793577600;
         "totalScore" := FPrim VNull ]} ].
Proof.
  destruct (X10_game_audit_record Scenario.world
              (Scenario.from_alice (Scenario.game (VNum (NInt 50)) VNull))
              Firestore.no_documents "alice" 50) as (text & Hau & Htx & _).
  - reflexivity.
  - discriminate.
  - reflexivity.
  - reflexivity.
  - lia.
  - reflexivity.
  - reflexivity.
  - rewrite Hau, Htx. reflexivity.
Defined.

(** *** Once per UTC day *)

Lemma dayKey_same_day E E' : same_day E E' -> dayKey E = dayKey E'.
Proof. intros (Hy & Hm & Hd). unfold dayKey. rewrite Hy, Hm, Hd. reflexivity. Qed.

(** After a call of applyAdReward that passed the userId check, the
    stored day-key is today's, whether the call awarded or not. *)
Lemma ad_call_sets_day E req s uid :
  authenticate E req = Some uid ->
  mismatch (userId (body_or_empty req)) uid = false ->
  field (next E AdReward req s) uid "lastAdShown" = Some (FPrim (VStr (dayKey E))).
Proof.
  intros Ha Hm. unfold next, handler.
  destruct (field_is (field s uid "lastAdShown") (dayKey E)) eqn:Hc.
  - rewrite (applyAdReward_claimed E req s uid Ha Hm Hc). cbn [snd db].
    apply field_is_spec, Hc.
  - destruct (applyAdReward_awards E req s uid Ha Hm Hc) as (s' & Hs' & ->).
    rewrite commit_ad_writes in Hs'. injection Hs' as <-. cbn [snd db].
    rewrite field_awarded_same. cbn [merge_fields fold_left fst snd resolve].
    apply lookup_insert_eq.
Qed.

Lemma game_call_keeps_field E req s u name :
  name <> "points" -> field (next E GamePoints req s) u name = field s u name.
Proof.
  intros Hn.
  destruct (next_cases E GamePoints req s) as [->|(uid & n & rest & adata & -> & Hc)];
    [reflexivity|].
  destruct Hc as (_ & _ & ->).
  destruct (String.eqb_spec u uid) as [->|Hne].
  - rewrite field_awarded_same, merge_fields_frame, default_lookup; [reflexivity|].
    cbn. intros [H|[]]. congruence.
  - apply field_awarded_other, Hne.
Qed.

Lemma play_keeps_field calls s u name :
  name <> "points" -> field (play calls s) u name = field s u name.
Proof.
  intros Hn. unfold play. revert s.
  induction calls as [|[E req] calls IH]; intros s; [reflexivity|].
  cbn [fold_left fst snd]. rewrite IH. apply game_call_keeps_field, Hn.
Qed.

(** X11: the ad reward is granted at most once per UTC day.  After a
    call of applyAdReward by a verified user who names itself, a second
    such call on the same UTC day, with any number of game awards of any
    users in between, changes nothing in the store, and the client is
    told "Already claimed today". *)
Theorem X11_second_ad_call_of_the_day_changes_nothing E req E' req' calls s uid :
  authenticate E req = Some uid ->
  userId (body_or_empty req) = VStr uid ->
  authenticate E' req' = Some uid ->
  userId (body_or_empty req') = VStr uid ->
  uid <> "" ->
  same_day E E' ->
  let s2 := play calls (next E AdReward req s) in
  next E' AdReward req' s2 = s2 /\
  delivered (log (run (applyAdReward E' req') s2).2) =
    Some (200, Failure "Already claimed today").
Proof.
  intros Ha Hu Ha' Hu' Hne Hday s2.
  assert (Hm : mismatch (userId (body_or_empty req)) uid = false)
    by (rewrite Hu; apply mismatch_same, Hne).
  assert (Hm' : mismatch (userId (body_or_empty req')) uid = false)
    by (rewrite Hu'; apply mismatch_same, Hne).
  assert (Hc : field_is (field s2 uid "lastAdShown") (dayKey E') = true).
  { apply field_is_spec. subst s2. rewrite play_keeps_field by discriminate.
    rewrite <- (dayKey_same_day E E' Hday). apply ad_call_sets_day; assumption. }
  unfold next, handler. rewrite (applyAdReward_claimed E' req' s2 uid Ha' Hm' Hc).
  split; reflexivity.
Qed.

(** Alice claims, plays a game, and claims again on 2 November 2026. *)
Lemma X11_witness :
  let ad := Scenario.from_alice Scenario.just_userId in
  let game := Scenario.from_alice (Scenario.game (VNum (NInt 50)) (VNum (NInt 3))) in
  let s2 := play [(Scenario.world, game)]
                 (next Scenario.world AdReward ad Firestore.no_documents) in
  next Scenario.world AdReward ad s2 = s2 /\
  delivered (log (run (applyAdReward Scenario.world ad) s2).2) =
    Some (200, Failure "Already claimed today").
Proof.
  apply (X11_second_ad_call_of_the_day_changes_nothing
           Scenario.world (Scenario.from_alice Scenario.just_userId)
           Scenario.world (Scenario.from_alice Scenario.just_userId)
           [(Scenario.world,
             Scenario.from_alice (Scenario.game (VNum (NInt 50)) (VNum (NInt 3))))]
           Firestore.no_documents "alice");
    solve [reflexivity | discriminate | repeat split].
Defined.

(** *** The day-key *)

Lemma all_from_spec P n : forall z i,
  all_from P z n = true -> z <= i < z + Z.of_nat n -> P i = true.
Proof.
  induction n as [|n IH]; intros z i H Hi; [lia|].
  cbn [all_from] in H. apply andb_true_iff in H as [Hz Hrest].
  destruct (Z.eq_dec i z) as [->|Hne]; [exact Hz|].
  apply (IH (z + 1)); [exact Hrest|lia].
Qed.

(** Number::toString writes every year of a date in plain decimal. *)
Lemma Number_toString_year z :
  0 <= z <= 275760 -> Number_toString (NInt z) = decimal z.
Proof.
  intros Hz.
  assert (Hall : all_from (fun i => String.eqb (Number_toString (NInt i)) (decimal i))
                          0 (Z.to_nat 275761) = true) by (vm_compute; reflexivity).
  apply String.eqb_eq.
  apply (all_from_spec _ _ 0 z Hall). lia.
Qed.

Lemma string_of_uint_digits d : all_digits (NilEmpty.string_of_uint d) = true.
Proof. induction d; cbn [NilEmpty.string_of_uint all_digits]; auto. Qed.

Lemma decimal_digits z : 0 <= z -> all_digits (decimal z) = true.
Proof.
  intros Hz. unfold decimal. destruct z as [|p|p]; [reflexivity| |lia].
  cbn [Z.to_int NilZero.string_of_int]. unfold NilZero.string_of_uint.
  destruct (Pos.to_uint p); try reflexivity; apply string_of_uint_digits.
Qed.

Lemma decimal_inj z z' : decimal z = decimal z' -> z = z'.
Proof.
  unfold decimal. intros H.
  assert (Hn : forall x, Z.to_int x <> Decimal.Pos Decimal.Nil /\
                         Z.to_int x <> Decimal.Neg Decimal.Nil).
  { intros [|p|p]; cbn [Z.to_int]; split; try discriminate;
      intros [= Hp]; exact (DecimalPos.Unsigned.to_uint_nonnil p Hp). }
  apply DecimalZ.to_int_inj.
  assert (Hs : Some (Z.to_int z) = Some (Z.to_int z')).
  { rewrite <- (NilZero.isi (Z.to_int z)), <- (NilZero.isi (Z.to_int z'));
      try apply Hn. rewrite H. reflexivity. }
  injection Hs as Hs. exact Hs.
Qed.

(** Two texts made of a run of digits, a dash and a rest are equal only
    if the runs and the rests are. *)
Lemma dash_splits a : forall a' r r',
  all_digits a = true -> all_digits a' = true ->
  a ++ String "-" r = a' ++ String "-" r' -> a = a' /\ r = r'.
Proof.
  induction a as [|c a IH]; intros [|c' a'] r r' Ha Ha' H; cbn in H.
  - injection H as ->. auto.
  - injection H as <- _. cbn in Ha'. discriminate.
  - injection H as -> _. cbn in Ha. discriminate.
  - injection H as -> H. cbn [all_digits] in Ha, Ha'.
    apply andb_true_iff in Ha as [_ Ha]. apply andb_true_iff in Ha' as [_ Ha'].
    destruct (IH a' r r' Ha Ha' H) as [-> ->]. auto.
Qed.

Lemma dayKey_decimal E :
  calendar_date E ->
  dayKey E = decimal (getUTCFullYear E) ++
             String "-" (decimal (getUTCMonth E + 1) ++
                         String "-" (decimal (getUTCDate E))).
Proof.
  intros (Hy & Hm & Hd). unfold dayKey.
  rewrite !Number_toString_year by lia. reflexivity.
Qed.

Lemma dayKey_inj E E' :
  calendar_date E -> calendar_date E' -> dayKey E = dayKey E' -> same_day E E'.
Proof.
  intros HE HE'.
  rewrite (dayKey_decimal E HE), (dayKey_decimal E' HE').
  destruct HE as (Hy & Hm & Hd), HE' as (Hy' & Hm' & Hd').
  intros H.
  apply dash_splits in H as [H1 H]; try (apply decimal_digits; lia).
  apply dash_splits in H as [H2 H3]; try (apply decimal_digits; lia).
  apply decimal_inj in H1, H2, H3. unfold same_day. lia.
Qed.

(** X12: the day-key names the UTC day.  For clocks that show calendar
    dates, two day-keys are equal exactly when year, month and day of
    the month are: without zero padding, "2026-1-11" and "2026-11-1"
    still differ. *)
Theorem X12_dayKey_names_the_day E E' :
  calendar_date E -> calendar_date E' ->
  (dayKey E = dayKey E' <-> same_day E E').
Proof.
  intros HE HE'. split; [apply dayKey_inj; assumption|apply dayKey_same_day].
Qed.

(** 11 January and 1 November 2026 have different day-keys. *)
Lemma X12_witness :
  let jan11 := {| verifyIdToken := fun _ => None; getUTCFullYear := 2026;
                  getUTCMonth := 0; getUTCDate := 11; serverTime := 0;
                  storable := fun _ => true |} in
  let nov1 := {| verifyIdToken := fun _ => None; getUTCFullYear := 2026;
                 getUTCMonth := 10; getUTCDate := 1; serverTime := 0;
                 storable := fun _ => true |} in
  dayKey jan11 <> dayKey nov1.
Proof.
  cbv zeta. intros H.
  apply (X12_dayKey_names_the_day
           {| verifyIdToken := fun _ => None; getUTCFullYear := 2026;
              getUTCMonth := 0; getUTCDate := 11; serverTime := 0;
                  storable := fun _ => true |}
           {| verifyIdToken := fun _ => None; getUTCFullYear := 2026;
              getUTCMonth := 10; getUTCDate := 1; serverTime := 0;
                 storable := fun _ => true |}) in H.
  - destruct H as (_ & Hm & _). discriminate.
  - unfold calendar_date. cbn. lia.
  - unfold calendar_date. cbn. lia.
Defined.

Lemma integral_next E c req s uid :
  integral (field s uid "points") = true ->
  integral (field (next E c req s) uid "points") = true.
Proof.
  intros Hi.
  destruct (next_cases E c req s) as [->|(u & n & rest & adata & -> & Hc)]; [exact Hi|].
  apply award_rest_has_no_points in Hc as [Hnp _].
  destruct (String.eqb_spec uid u) as [->|Hne].
  - rewrite points_after_award by assumption. reflexivity.
  - rewrite field_awarded_other by exact Hne. exact Hi.
Qed.

(** X13: a new UTC day brings a new reward.  After a call of
    applyAdReward by a verified user who names itself, a further such
    call on another calendar day adds exactly 100 to the total, whether
    the first call awarded or not; the totals are safe integers, given
    that the total before the two calls is absent or a safe integer with
    room for 200. *)
Theorem X13_next_day_awards_again E req E' req' s uid :
  authenticate E req = Some uid ->
  userId (body_or_empty req) = VStr uid ->
  authenticate E' req' = Some uid ->
  userId (body_or_empty req') = VStr uid ->
  uid <> "" ->
  calendar_date E -> calendar_date E' ->
  ~ same_day E E' ->
  safe_total (field s uid "points") 200 ->
  let s1 := next E AdReward req s in
  let s2 := next E' AdReward req' s1 in
  pointTotal s2 uid = pointTotal s1 uid + 100 /\
  field s2 uid "points" = Some (FPrim (VNum (NInt (pointTotal s1 uid + 100)))) /\
  - MAX_SAFE_INTEGER <= pointTotal s1 uid + 100 <= MAX_SAFE_INTEGER /\
  field s2 uid "lastAdShown" = Some (FPrim (VStr (dayKey E'))) /\
  length (audits s2 uid) = S (length (audits s1 uid)).
Proof.
  intros Ha Hu Ha' Hu' Hne HE HE' Hday Hsafe s1 s2.
  pose proof (safe_total_integral _ _ Hsafe) as Hi.
  assert (Hm : mismatch (userId (body_or_empty req)) uid = false)
    by (rewrite Hu; apply mismatch_same, Hne).
  assert (Hm' : mismatch (userId (body_or_empty req')) uid = false)
    by (rewrite Hu'; apply mismatch_same, Hne).
  assert (Hi1 : integral (field s1 uid "points") = true) by apply integral_next, Hi.
  assert (Hc : field_is (field s1 uid "lastAdShown") (dayKey E') = false).
  { destruct (field_is _ _) eqn:Hc; [|reflexivity]. exfalso.
    apply field_is_spec in Hc. subst s1.
    rewrite (ad_call_sets_day E req s uid Ha Hm) in Hc. injection Hc as Hc.
    apply Hday, dayKey_inj; assumption. }
  assert (Hs2 : s2 = awarded (serverTime E') uid
                       [("points", Increment (VNum (NInt 100)));
                        ("lastAdShown", Plain (FPrim (VStr (dayKey E'))))]
                       [("text", Plain (FPrim (VStr "Watched daily ad +100 pts (server)")));
                        ("time", ServerTimestamp)] s1).
  { subst s2. unfold next at 1, handler.
    destruct (applyAdReward_awards E' req' s1 uid Ha' Hm' Hc) as (s' & Hs' & ->).
    rewrite commit_ad_writes in Hs'. injection Hs' as <-. reflexivity. }
  assert (Hnp : ~ In "points" (map fst [("lastAdShown", Plain (FPrim (VStr (dayKey E'))))]))
    by (cbn; intros [H|[]]; discriminate).
  split; [|split; [|split; [|split]]].
  - rewrite Hs2. apply total_after_award; assumption.
  - rewrite Hs2. apply points_after_award; assumption.
  - assert (Hb : pointTotal s1 uid = pointTotal s uid \/
                 pointTotal s1 uid = pointTotal s uid + 100).
    { subst s1.
      destruct (next_cases E AdReward req s) as [->|(u & n & rest & adata & -> & -> & ->)];
        [left; reflexivity|].
      destruct (String.eqb_spec uid u) as [->|Hneq].
      - right. apply total_after_award; [|exact Hi]. cbn. intros [H|[]]. discriminate.
      - left. unfold pointTotal. rewrite field_awarded_other by exact Hneq. reflexivity. }
    assert (Hb2 : total_of (field s uid "points") + 200 <= MAX_SAFE_INTEGER)
      by (apply safe_total_bounds; [lia|exact Hsafe]).
    pose proof (safe_total_floor _ 200 Hsafe) as Hb0.
    fold (pointTotal s uid) in Hb2, Hb0. lia.
  - apply ad_call_sets_day; assumption.
  - rewrite Hs2, audits_awarded_same, length_app. cbn. lia.
Qed.

(** Alice claims on 2 November 2026 and again on 3 November: 200 points
    and two audit records. *)
Lemma X13_witness :
  let ad := Scenario.from_alice Scenario.just_userId in
  let s1 := next Scenario.world AdReward ad Firestore.no_documents in
  let s2 := next tomorrow AdReward ad s1 in
  pointTotal s2 "alice" = 200 /\
  field s2 "alice" "points" = Some (FPrim (VNum (NInt 200))) /\
  - MAX_SAFE_INTEGER <= 200 <= MAX_SAFE_INTEGER /\
  field s2 "alice" "lastAdShown" = Some (FPrim (VStr "2026-11-3")) /\
  length (audits s2 "alice") = 2%nat.
Proof.
  apply (X13_next_day_awards_again Scenario.world
           (Scenario.from_alice Scenario.just_userId)
           tomorrow (Scenario.from_alice Scenario.just_userId)
           Firestore.no_documents "alice");
    try solve [reflexivity | discriminate | exact I | unfold calendar_date; cbn; lia].
  intros (_ & _ & Hd). discriminate.
Defined.

(** *** The shape of what the system stores *)

(** What the system itself writes into a store. *)
Lemma awarded_record_exists t uid udata adata s :
  is_Some (users (awarded t uid udata adata s) !! uid).
Proof. unfold awarded. cbn [users]. rewrite lookup_insert_eq. eauto. Qed.

Lemma reachable_when_reachable P s : reachable_when P s -> reachable s.
Proof. induction 1; [apply reach_empty|apply reach_call; assumption]. Qed.

(** X14: in every store the system reaches from the empty one, a balance
    record holds a points field, a non-negative integer, possibly a
    lastAdShown field, the day-key of the clock of one of the calls, and
    no other field; and every audit record holds a text and a timestamp.
    So when the clocks of the calls show calendar dates, lastAdShown is
    the day-key of a calendar date. *)
Theorem X14_shape_of_reachable_stores (P : env -> Prop) s :
  reachable_when P s ->
  forall uid,
    (is_Some (users s !! uid) ->
     exists z, 0 <= z /\ field s uid "points" = Some (FPrim (VNum (NInt z)))) /\
    (forall name, name <> "points" -> name <> "lastAdShown" ->
                  field s uid name = None) /\
    (field s uid "lastAdShown" = None \/
     exists E, P E /\ field s uid "lastAdShown" = Some (FPrim (VStr (dayKey E)))) /\
    Forall (fun a => exists text t, a !! "text" = Some (FPrim (VStr text)) /\
                                    a !! "time" = Some (FTimestamp t))
           (audits s uid).
Proof.
  induction 1 as [|s E c req Hs IH HP]; intros u.
  - assert (Hu : users Firestore.no_documents !! u = None) by apply lookup_empty.
    assert (Ha : audits Firestore.no_documents u = [])
      by (unfold audits, Firestore.no_documents; cbn; rewrite lookup_empty; reflexivity).
    unfold field. rewrite Hu, Ha. cbn. repeat split; auto.
    intros [d Hd]. discriminate.
  - pose proof (reachable_total_ok s (reachable_when_reachable P s Hs)) as Hok.
    unfold next. generalize (run_outcome E c req s).
    generalize (run (handler c E req) s). intros r Ho.
    destruct Ho as [c evs Ha Hin|c uid err Ha Hin|uid Ha Hu Hk|uid Ha Hu Hk s'
                    |uid Ha Hx|uid Ha Hst|uid p Ha b Hu Hp Hr s']; cbn [snd db]; try apply IH.
    + subst s'. destruct (String.eqb_spec u uid) as [->|Hne].
      * destruct (total_ok_integral _ (Hok uid)) as [Hi H0]. split; [|split; [|split]].
        -- intros _. exists (pointTotal s uid + 100). split; [unfold pointTotal; lia|].
           apply points_after_award; [|exact Hi]. cbn. intros [H|[]]. discriminate.
        -- intros name H1 H2.
           rewrite field_awarded_same, merge_fields_frame, default_lookup.
           ++ apply IH; assumption.
           ++ cbn. intros [H|[H|[]]]; congruence.
        -- right. exists E. split; [exact HP|]. rewrite field_awarded_same.
           cbn [merge_fields fold_left fst snd resolve]. apply lookup_insert_eq.
        -- rewrite audits_awarded_same. apply Forall_app. split; [apply IH|].
           constructor; [|constructor]. eexists _, _. split; reflexivity.
      * unfold field, audits in *. unfold awarded. cbn [users activities].
        rewrite !lookup_insert_ne by congruence. apply IH.
    + subst s'. destruct (String.eqb_spec u uid) as [->|Hne].
      * destruct (total_ok_integral _ (Hok uid)) as [Hi H0]. split; [|split; [|split]].
        -- intros _. exists (pointTotal s uid + p). split; [unfold pointTotal; lia|].
           apply points_after_award; [intros []|exact Hi].
        -- intros name H1 H2.
           rewrite field_awarded_same, merge_fields_frame, default_lookup.
           ++ apply IH; assumption.
           ++ cbn. intros [H|[]]. congruence.
        -- rewrite field_awarded_same, merge_fields_frame, default_lookup.
           ++ apply IH.
           ++ cbn. intros [H|[]]. discriminate.
        -- rewrite audits_awarded_same. apply Forall_app. split; [apply IH|].
           constructor; [|constructor]. eexists _, _. split; reflexivity.
      * unfold field, audits in *. unfold awarded. cbn [users activities].
        rewrite !lookup_insert_ne by congruence. apply IH.
Qed.

(** After alice's first ad reward, on 2 November 2026. *)
Lemma X14_witness :
  let s := next Scenario.world AdReward (Scenario.from_alice Scenario.just_userId)
                Firestore.no_documents in
  (is_Some (users s !! "alice") ->
   exists z, 0 <= z /\ field s "alice" "points" = Some (FPrim (VNum (NInt z)))) /\
  (forall name, name <> "points" -> name <> "lastAdShown" ->
                field s "alice" name = None) /\
  (field s "alice" "lastAdShown" = None \/
   exists E, calendar_date E /\
             field s "alice" "lastAdShown" = Some (FPrim (VStr (dayKey E)))) /\
  Forall (fun a => exists text t, a !! "text" = Some (FPrim (VStr text)) /\
                                  a !! "time" = Some (FTimestamp t))
         (audits s "alice").
Proof.
  assert (Hdate : calendar_date Scenario.world) by (unfold calendar_date; cbn; lia).
  exact (X14_shape_of_reachable_stores calendar_date _
           (when_call calendar_date _ Scenario.world AdReward
              (Scenario.from_alice Scenario.just_userId)
              (when_empty calendar_date) Hdate)
           "alice").
Defined.
